(** * Neighbour-weighted rating prediction (collaborative-filtering notebooks)

    A shallow embedding of the two notebooks of the repository that
    predict a rating, the one on cosine similarity and the one on
    Pearson's correlation, with the part of pandas and scikit-learn they
    call.  The third notebook, on the singular value decomposition,
    predicts nothing; of it only the data and the fill of missing
    ratings by row means are here, its standardisation and decomposition
    being numerical routines.

    Numbers.  The notebooks compute with IEEE doubles, and the embedding
    reads them twice.

    - In exact arithmetic: a finite double is the real number it stands
      for, and no operation rounds.  The two kinds of non-finite values
      the notebooks can meet are kept apart from the finite ones: [NaN],
      which pandas uses for a missing rating, and the infinities, which
      numpy returns for a division of a non-zero number by zero.  Zero
      carries no sign.  The numbers are those of [R] and not of [Q]: both
      similarity measures take square roots.  Everything but [Double] is
      read this way.  Labels, missing entries, exceptions, and the order
      and the leading digits of values that lie well apart are there as
      they are in the notebooks; an equation between two computed
      numbers is one of exact arithmetic, and need not hold of the
      doubles but up to rounding.

    - In binary64: the module [Double] has the centring of a row and the
      prediction expression on the doubles themselves, every operation
      rounding to nearest as the processor does.  It is where an equation
      that rounding breaks is shown to break. *)

From Stdlib Require Import Floats.
From Stdlib Require Import Reals Lra Lia List String Bool.
Import ListNotations.

Open Scope string_scope.
Open Scope list_scope.
Open Scope R_scope.

#[local] Set Warnings "-inexact-float".

(** ** Scalars *)

Module Float.

(** A numpy [float64] scalar, in exact arithmetic: a finite one is the
    real number it stands for. *)
Inductive float : Type :=
| Fin (x : R)
| Inf (negative : bool)
| NaN.

Definition is_neg (x : R) : bool := if Rlt_dec x 0 then true else false.

Definition fadd (a b : float) : float :=
  match a, b with
  | NaN, _ | _, NaN => NaN
  | Fin x, Fin y => Fin (x + y)
  | Inf s, Fin _ => Inf s
  | Fin _, Inf s => Inf s
  | Inf s, Inf s' => if Bool.eqb s s' then Inf s else NaN
  end.

Definition fmul (a b : float) : float :=
  match a, b with
  | NaN, _ | _, NaN => NaN
  | Fin x, Fin y => Fin (x * y)
  | Inf s, Fin y => if Req_dec_T y 0 then NaN else Inf (xorb s (is_neg y))
  | Fin x, Inf s => if Req_dec_T x 0 then NaN else Inf (xorb (is_neg x) s)
  | Inf s, Inf s' => Inf (xorb s s')
  end.

(** numpy's true division: a zero divisor gives no exception but an
    infinity, or [NaN] for [0 / 0]. *)
Definition fdiv (a b : float) : float :=
  match a, b with
  | NaN, _ | _, NaN => NaN
  | Fin x, Fin y =>
      if Req_dec_T y 0
      then (if Req_dec_T x 0 then NaN else Inf (is_neg x))
      else Fin (x / y)
  | Fin _, Inf _ => Fin 0
  | Inf s, Fin y => Inf (xorb s (is_neg y))
  | Inf _, Inf _ => NaN
  end.

End Float.
Export Float.

(** ** Exceptions *)

Definition label := string.

(** [KeyError]: a label that is in no axis of the frame it is looked up in;
    the only exception a prediction expression can raise.  [ValueError]:
    scikit-learn's refusal of an array with a missing entry, with no row
    or with no column. *)
Inductive exn : Type :=
| KeyError (key : label)
| ValueError.

Inductive result (A : Type) : Type :=
| Ok (a : A)
| Raise (e : exn).
Arguments Ok {A} a.
Arguments Raise {A} e.

Definition bind {A B : Type} (m : result A) (k : A -> result B) : result B :=
  match m with
  | Ok a => k a
  | Raise e => Raise e
  end.

Notation "x <- m ;; k" := (bind m (fun x => k))
  (at level 61, m at next level, right associativity).

(** ** The part of pandas the notebooks use *)

Module Pandas.

(** A cell of a frame: a finite number, in exact arithmetic, or pandas'
    missing value. *)
Definition cell := option R.

Definition of_cell (c : cell) : float :=
  match c with
  | Some x => Fin x
  | None => NaN
  end.

Record Series : Type := mkSeries
  { s_index : list label;
    s_values : list cell }.

(** Rows are kept with their index label; every row is read along
    [columns]. *)
Record DataFrame : Type := mkFrame
  { columns : list label;
    rows : list (label * list cell) }.

Definition index (df : DataFrame) : list label := map fst (rows df).
Definition values (df : DataFrame) : list (list cell) := map snd (rows df).

Fixpoint position (k : label) (ks : list label) : option nat :=
  match ks with
  | [] => None
  | k' :: ks' =>
      if String.eqb k k' then Some O
      else option_map S (position k ks')
  end.

Fixpoint assoc {A : Type} (k : label) (l : list (label * A)) : option A :=
  match l with
  | [] => None
  | (k', a) :: l' => if String.eqb k k' then Some a else assoc k l'
  end.

(** [s[k]] *)
Definition getitem (s : Series) (k : label) : result cell :=
  match position k (s_index s) with
  | Some n => Ok (nth n (s_values s) None)
  | None => Raise (KeyError k)
  end.

(** [df.loc[u]]: the row of label [u], a series over the columns.  Row
    labels are meant to be distinct; of rows with one same label the first
    is read. *)
Definition loc (df : DataFrame) (u : label) : result Series :=
  match assoc u (rows df) with
  | Some r => Ok (mkSeries (columns df) r)
  | None => Raise (KeyError u)
  end.

(** [df.loc[u][i]], a scalar. *)
Definition at_ (df : DataFrame) (u i : label) : result float :=
  row <- loc df u ;;
  x <- getitem row i ;;
  Ok (of_cell x).

(** [s[k]] as a scalar. *)
Definition item (s : Series) (k : label) : result float :=
  x <- getitem s k ;;
  Ok (of_cell x).

(** *** Construction *)

(** [transpose n m]: the [n] columns of the matrix [m], as rows. *)
Definition transpose (n : nat) (m : list (list cell)) : list (list cell) :=
  map (fun c => map (fun row => nth c row None) m) (seq 0 n).

(** [pd.DataFrame(data, index=idx)] for a dict [data] of columns. *)
Definition DataFrame_of_dict (data : list (label * list cell))
    (idx : list label) : DataFrame :=
  mkFrame (map fst data)
          (combine idx (transpose (List.length idx) (map snd data))).

(** [pd.DataFrame(m, index=idx, columns=cols)] for an array [m]. *)
Definition DataFrame_of_array (m : list (list R)) (idx cols : list label)
    : DataFrame :=
  mkFrame cols (combine idx (map (map Some) m)).

(** [df.T] *)
Definition T (df : DataFrame) : DataFrame :=
  mkFrame (index df)
          (combine (columns df)
                   (transpose (List.length (columns df)) (values df))).

(** *** Missing values and means *)

(** [df.fillna(v)] *)
Definition fillna (v : R) (df : DataFrame) : DataFrame :=
  mkFrame (columns df)
          (map (fun r => (fst r,
                          map (fun c => match c with
                                        | Some x => Some x
                                        | None => Some v
                                        end) (snd r)))
               (rows df)).

Definition sum (xs : list R) : R := fold_right Rplus 0 xs.

(** The ratings that are there. *)
Fixpoint observed (xs : list cell) : list R :=
  match xs with
  | [] => []
  | Some x :: xs' => x :: observed xs'
  | None :: xs' => observed xs'
  end.

(** The mean of a row with [skipna=True]: missing entries count neither in
    the sum nor in the number of terms; the mean of no entry is missing. *)
Definition nanmean (xs : list cell) : cell :=
  match observed xs with
  | [] => None
  | vs => Some (sum vs / INR (List.length vs))
  end.

(** [df.mean(axis=1)] *)
Definition mean_axis1 (df : DataFrame) : Series :=
  mkSeries (index df) (map nanmean (values df)).

(** [s.subtract(m)] for a scalar [m]. *)
Definition subtract (s : Series) (m : cell) : Series :=
  mkSeries (s_index s)
           (map (fun c => match c, m with
                          | Some x, Some y => Some (x - y)
                          | _, _ => None
                          end) (s_values s)).

Fixpoint set_assoc {A : Type} (k : label) (a : A) (l : list (label * A))
    : list (label * A) :=
  match l with
  | [] => [(k, a)]
  | (k', a') :: l' =>
      if String.eqb k k' then (k', a) :: l'
      else (k', a') :: set_assoc k a l'
  end.

(** [df.loc[u] = s], for a row [s] over the columns of [df]; a label the
    frame does not have yet gets a new row at the end. *)
Definition setloc (df : DataFrame) (u : label) (s : Series) : DataFrame :=
  mkFrame (columns df) (set_assoc u (s_values s) (rows df)).

(** *** Correlation *)

(** The observations two columns share. *)
Fixpoint paired (xs ys : list cell) : list (R * R) :=
  match xs, ys with
  | Some x :: xs', Some y :: ys' => (x, y) :: paired xs' ys'
  | _ :: xs', _ :: ys' => paired xs' ys'
  | _, _ => []
  end.

(** Pearson's coefficient of two columns over the observations they share
    ([min_periods = 1]); missing when they share none or when one of
    them is constant there.  In exact arithmetic: pandas takes the same
    sums by a running update, and cuts the quotient back to the interval
    from -1 to 1, where without rounding it is already. *)
Definition pearson (xs ys : list cell) : cell :=
  match paired xs ys with
  | [] => None
  | ps =>
      let n := INR (List.length ps) in
      let mx := sum (map fst ps) / n in
      let my := sum (map snd ps) / n in
      let sxx := sum (map (fun p => (fst p - mx) * (fst p - mx)) ps) in
      let syy := sum (map (fun p => (snd p - my) * (snd p - my)) ps) in
      let sxy := sum (map (fun p => (fst p - mx) * (snd p - my)) ps) in
      let divisor := sqrt (sxx * syy) in
      if Req_dec_T divisor 0 then None else Some (sxy / divisor)
  end.

(** [df.corr()]: the coefficients of the columns of [df], pair by pair. *)
Definition corr (df : DataFrame) : DataFrame :=
  let cols := transpose (List.length (columns df)) (values df) in
  mkFrame (columns df)
          (combine (columns df)
                   (map (fun x => map (fun y => pearson x y) cols) cols)).

End Pandas.
Export Pandas.

(** ** The part of scikit-learn the notebooks use *)

Module Sklearn.

(** The array behind a frame; scikit-learn raises on a missing entry. *)
Fixpoint dense_row (xs : list cell) : result (list R) :=
  match xs with
  | [] => Ok []
  | Some x :: xs' => r <- dense_row xs' ;; Ok (x :: r)
  | None :: _ => Raise ValueError
  end.

Fixpoint dense_rows (m : list (list cell)) : result (list (list R)) :=
  match m with
  | [] => Ok []
  | r :: m' => r' <- dense_row r ;; m'' <- dense_rows m' ;; Ok (r' :: m'')
  end.

(** [check_array]: beside a missing entry, scikit-learn refuses an array
    with no row (it asks for one sample at least) and an array with no
    column (one feature at least), with a [ValueError] as well. *)
Definition check_array (m : list (list cell)) : result (list (list R)) :=
  match m with
  | [] => Raise ValueError
  | [] :: _ => Raise ValueError
  | _ :: _ => dense_rows m
  end.

Definition norm (x : list R) : R := sqrt (sum (map (fun a => a * a) x)).

(** A row over its Euclidean norm; a row of norm zero is left as it is.
    In exact arithmetic: the norm is the square root itself, and zero
    only for a row of zeros. *)
Definition normalize (x : list R) : list R :=
  let n := norm x in
  let n' := if Req_dec_T n 0 then 1 else n in
  map (fun a => a / n') x.

Definition dot (x y : list R) : R :=
  sum (map (fun p => fst p * snd p) (combine x y)).

(** The products of the rows of [Xn], pair by pair: [Xn @ Xn.T]. *)
Definition gram (Xn : list (list R)) : list (list R) :=
  map (fun x => map (fun y => dot x y) Xn) Xn.

(** [cosine_similarity(X)]: the rows are normalised, then multiplied
    pair by pair. *)
Definition cosine_similarity (df : DataFrame) : result (list (list R)) :=
  X <- check_array (values df) ;;
  Ok (gram (map normalize X)).

End Sklearn.
Export Sklearn.

(** ** The cells of the notebooks *)

(** The mean-centring cell: [user_means = df.mean(axis=1)] and the loop
      [for user in df.index: df.loc[user] = df.loc[user].subtract(user_means[user])]. *)
Definition user_means_of (df : DataFrame) : Series := mean_axis1 df.

Definition centre_step (means : Series) (frame : result DataFrame)
    (user : label) : result DataFrame :=
  df <- frame ;;
  row <- loc df user ;;
  m <- getitem means user ;;
  Ok (setloc df user (subtract row m)).

Definition means_data_frame_of (df : DataFrame) : result DataFrame :=
  fold_left (centre_step (user_means_of df)) (index df) (Ok df).

(** The prediction cells.  Each of them is one of two expressions, over a
    similarity frame [S], a rating frame [D], the target [t], the two peers
    [p1] and [p2] and the item [i]:
      [(S.loc[t][p1] * D.loc[p1][i] + S.loc[t][p2] * D.loc[p2][i])
        / (S.loc[t][p1] + S.loc[t][p2])]
    and the same with [M[t] +] in front, for a series [M] of means.
    Look-ups happen in the order Python evaluates them. *)
Definition prediction (S D : DataFrame) (t p1 p2 i : label) : result float :=
  s1 <- at_ S t p1 ;;
  r1 <- at_ D p1 i ;;
  s2 <- at_ S t p2 ;;
  r2 <- at_ D p2 i ;;
  d1 <- at_ S t p1 ;;
  d2 <- at_ S t p2 ;;
  Ok (fdiv (fadd (fmul s1 r1) (fmul s2 r2)) (fadd d1 d2)).

Definition mean_prediction (M : Series) (S D : DataFrame) (t p1 p2 i : label)
    : result float :=
  m <- item M t ;;
  s1 <- at_ S t p1 ;;
  r1 <- at_ D p1 i ;;
  s2 <- at_ S t p2 ;;
  r2 <- at_ D p2 i ;;
  d1 <- at_ S t p1 ;;
  d2 <- at_ S t p2 ;;
  Ok (fadd m (fdiv (fadd (fmul s1 r1) (fmul s2 r2)) (fadd d1 d2))).

(** What the loop leaves of a row: every rating less the mean of the
    ratings of the row. *)
Definition centred (r : list cell) : list cell :=
  s_values (subtract (mkSeries [] r) (nanmean r)).

Definition centred_rows (l : list (label * list cell))
    : list (label * list cell) :=
  map (fun ur => (fst ur, centred (snd ur))) l.

(** The ratings of the five users for the six items, column by column. *)
Definition data : list (label * list cell) :=
  [ ("item-1", [Some 7; Some 6; None; Some 1; Some 1]);
    ("item-2", [Some 6; Some 7; Some 3; Some 2; None]);
    ("item-3", [Some 7; None; Some 3; Some 2; Some 1]);
    ("item-4", [Some 4; Some 4; Some 1; Some 3; Some 2]);
    ("item-5", [Some 5; Some 3; Some 1; Some 3; Some 3]);
    ("item-6", [Some 4; Some 4; None; Some 4; Some 3]) ].

Definition data_frame : DataFrame :=
  DataFrame_of_dict data ["user-1"; "user-2"; "user-3"; "user-4"; "user-5"].

Definition users : list label :=
  ["user-1"; "user-2"; "user-3"; "user-4"; "user-5"].

(** The array of [data_frame.fillna(0)]. *)
Definition zero_filled : list (list R) :=
  [ [7; 6; 7; 4; 5; 4];
    [6; 7; 0; 4; 3; 4];
    [0; 3; 3; 1; 1; 0];
    [1; 2; 2; 3; 3; 4];
    [1; 0; 1; 2; 3; 3] ].

(** The frame the cosine notebook prints as its first similarity matrix. *)
Definition raw_similarity : DataFrame :=
  DataFrame_of_array (gram (map normalize zero_filled)) users users.

(** *** Cosine similarity notebook *)

Module Cosine.

(** [pd.DataFrame(cosine_similarity(data_frame.fillna(0)), index=..., columns=...)] *)
Definition cosine_similarity_raw : result DataFrame :=
  K <- cosine_similarity (fillna 0 data_frame) ;;
  Ok (DataFrame_of_array K (index data_frame) (index data_frame)).

Definition user_means : Series := user_means_of data_frame.

Definition means_data_frame : result DataFrame :=
  means_data_frame_of data_frame.

Definition cosine_similarity_mean : result DataFrame :=
  mdf <- means_data_frame ;;
  K <- cosine_similarity (fillna 0 mdf) ;;
  Ok (DataFrame_of_array K (index data_frame) (index data_frame)).

Definition prediction_user_3_item_1 : result float :=
  S <- cosine_similarity_raw ;;
  prediction S data_frame "user-3" "user-1" "user-2" "item-1".

Definition prediction_user_3_item_6 : result float :=
  S <- cosine_similarity_raw ;;
  prediction S data_frame "user-3" "user-1" "user-2" "item-6".

Definition mean_prediction_user_3_item_1 : result float :=
  S <- cosine_similarity_mean ;;
  mdf <- means_data_frame ;;
  mean_prediction user_means S mdf "user-3" "user-1" "user-2" "item-1".

Definition mean_prediction_user_3_item_6 : result float :=
  S <- cosine_similarity_mean ;;
  mdf <- means_data_frame ;;
  mean_prediction user_means S mdf "user-3" "user-1" "user-2" "item-6".

(** Item to item: [cosine_similarity(data_frame.fillna(0).T)]. *)
Definition similarity_matrix : result DataFrame :=
  K <- cosine_similarity (T (fillna 0 data_frame)) ;;
  Ok (DataFrame_of_array K (columns data_frame) (columns data_frame)).

End Cosine.

(** *** Pearson correlation notebook *)

Module Pearson.

(** [data_frame.T.corr()] *)
Definition correlation : DataFrame := corr (T data_frame).

Definition prediction_user_3_item_1 : result float :=
  prediction correlation data_frame "user-3" "user-1" "user-2" "item-1".

Definition prediction_user_3_item_6 : result float :=
  prediction correlation data_frame "user-3" "user-1" "user-2" "item-6".

Definition user_means : Series := user_means_of data_frame.

Definition means_data_frame : result DataFrame :=
  means_data_frame_of data_frame.

Definition mean_prediction_user_3_item_1 : result float :=
  mdf <- means_data_frame ;;
  mean_prediction user_means correlation mdf
                  "user-3" "user-1" "user-2" "item-1".

Definition mean_prediction_user_3_item_6 : result float :=
  mdf <- means_data_frame ;;
  mean_prediction user_means correlation mdf
                  "user-3" "user-1" "user-2" "item-6".

End Pearson.

(** ** The predictor of the specification *)

(** The weighted average of a list of (similarity, rating value) pairs. *)
Definition weighted_sum (ws : list (R * R)) : R :=
  sum (map (fun w => fst w * snd w) ws).

Definition normalizer (ws : list (R * R)) : R :=
  sum (map fst ws).

(** The value a peer contributes: its rating, or its rating less its own
    mean when the prediction is centred. *)
Definition ratingValue (centered : bool) (rating mean : R) : R :=
  if centered then rating - mean else rating.

Definition weighted_average (centered : bool) (target_mean : R)
    (ws : list (R * R)) : R :=
  let q := weighted_sum ws / normalizer ws in
  if centered then q + target_mean else q.

(** A prediction that is a number close to [v]. *)
Definition approximately (r : result float) (v eps : R) : Prop :=
  exists y, r = Ok (Fin y) /\ Rabs (y - v) < eps.

(** Neighbour selection: an entity other than the target that has rated the
    item is a candidate; the top [k] are [k] distinct candidates no
    candidate left out is more similar to the target than. *)
Definition rated (D : DataFrame) (u i : label) : Prop :=
  exists r, at_ D u i = Ok (Fin r).

Definition candidate (D : DataFrame) (t i u : label) : Prop :=
  In u (index D) /\ u <> t /\ rated D u i.

Definition top_neighbors (S D : DataFrame) (t i : label) (k : nat)
    (peers : list label) : Prop :=
  List.length peers = k /\
  NoDup peers /\
  (forall p, In p peers ->
     candidate D t i p /\ exists sp, at_ S t p = Ok (Fin sp)) /\
  (forall p u sp su,
     In p peers -> candidate D t i u -> ~ In u peers ->
     at_ S t p = Ok (Fin sp) -> at_ S t u = Ok (Fin su) -> su <= sp).

(** Modelled from the spec: the predictor for any number of chosen peers
    (steps 2 to 4 of its algorithm).  The notebooks hold only its instances
    with two peers, [prediction] and [mean_prediction] above; here the two
    sums of those expressions run over a non-empty list [p :: ps] of peers,
    with the look-ups and the arithmetic of the notebooks.  This is the
    term one peer adds to the weighted sum. *)
Definition contribution (S D : DataFrame) (t i p : label) : result float :=
  s <- at_ S t p ;;
  r <- at_ D p i ;;
  Ok (fmul s r).

(** Modelled from the spec: a sum over the peers, from left to right, as
    the notebooks write theirs. *)
Fixpoint accumulate (f : label -> result float) (acc : float)
    (ps : list label) : result float :=
  match ps with
  | [] => Ok acc
  | p :: ps' => x <- f p ;; accumulate f (fadd acc x) ps'
  end.

(** Modelled from the spec: the uncentred predictor, the weighted sum
    over the sum of the similarities. *)
Definition predict (S D : DataFrame) (t i p : label) (ps : list label)
    : result float :=
  n0 <- contribution S D t i p ;;
  num <- accumulate (contribution S D t i) n0 ps ;;
  d0 <- at_ S t p ;;
  den <- accumulate (at_ S t) d0 ps ;;
  Ok (fdiv num den).

(** Modelled from the spec: the centred predictor, over the centred
    frame [D], with the mean of the target in front. *)
Definition mean_predict (M : Series) (S D : DataFrame) (t i p : label)
    (ps : list label) : result float :=
  m <- item M t ;;
  q <- predict S D t i p ps ;;
  Ok (fadd m q).

(** Ratings on which the two peers of a target are similar to it in
    opposite ways: over the items [x], [y], [z] that [t] has rated, [a]
    rises with [t] and [b] falls; both have rated [w], which [t] has
    not.  Row by row: [t = 1, 2, 3, NaN], [a = 2, 4, 6, 3],
    [b = 3, 2, 1, 5]. *)
Definition opposed_ratings : DataFrame :=
  DataFrame_of_dict
    [ ("x", [Some 1; Some 2; Some 3]);
      ("y", [Some 2; Some 4; Some 2]);
      ("z", [Some 3; Some 6; Some 1]);
      ("w", [None; Some 3; Some 5]) ]
    ["t"; "a"; "b"].

Definition opposed_correlation : DataFrame := corr (T opposed_ratings).

(** ** The cells of the notebooks, for any frame *)

(** The similarity cell:
    [pd.DataFrame(cosine_similarity(df.fillna(0)), index=df.index, columns=df.index)]. *)
Definition cosine_similarity_of (df : DataFrame) : result DataFrame :=
  K <- cosine_similarity (fillna 0 df) ;;
  Ok (DataFrame_of_array K (index df) (index df)).

(** The correlation cell: [df.T.corr()]. *)
Definition correlation_of (df : DataFrame) : DataFrame := corr (T df).

(** [row.fillna(v)] for a scalar [v], which may itself be missing. *)
Definition series_fillna (v : cell) (s : Series) : Series :=
  mkSeries (s_index s)
           (map (fun c => match c with
                          | Some x => Some x
                          | None => v
                          end) (s_values s)).

(** [row.mean()] *)
Definition series_mean (s : Series) : cell := nanmean (s_values s).

(** [df.apply(f, axis=1)], for an [f] that gives back a row over the
    columns it was given. *)
Definition apply_axis1 (f : Series -> Series) (df : DataFrame) : DataFrame :=
  mkFrame (columns df)
          (map (fun ur => (fst ur,
                           s_values (f (mkSeries (columns df) (snd ur)))))
               (rows df)).

(** The fill of the decomposition notebook:
    [df.apply(lambda row: row.fillna(row.mean()), axis=1)]. *)
Definition row_adjusted_mean (df : DataFrame) : DataFrame :=
  apply_axis1 (fun row => series_fillna (series_mean row) row) df.

(** *** Dimensionality reduction notebook, up to the fill *)

Module Svd.

Definition data : list (label * list cell) :=
  [ ("movieA", [Some 1; Some 7; Some 3; Some 5; Some 3; Some 5;
                Some 3; Some 5; Some 3; Some 5; Some 3; Some 5]);
    ("movieB", [Some 1; Some 7; Some 1; Some 7; Some 1; Some 7;
                Some 1; Some 7; Some 1; Some 7; Some 1; Some 7]);
    ("movieC", [Some 1; Some 7; Some 1; Some 7; None; None;
                None; None; None; None; None; None]) ].

Definition index : list label :=
  ["user-1"; "user-2"; "user-3"; "user-4"; "user-5"; "user-6";
   "user-7"; "user-8"; "user-9"; "user-10"; "user-11"; "user-12"].

Definition data_frame : DataFrame := DataFrame_of_dict data index.

(** [data_frame = data_frame.apply(lambda row: row.fillna(row.mean()), axis=1)] *)
Definition data_frame_filled : DataFrame := row_adjusted_mean data_frame.

End Svd.

(** The sums of [pearson], by name: the mean of a coordinate over the
    shared observations, and the sum of the products of the deviations of
    two coordinates from their means. *)
Definition mean_of (f : R * R -> R) (ps : list (R * R)) : R :=
  sum (map f ps) / INR (List.length ps).

Definition scatter (f g : R * R -> R) (ps : list (R * R)) : R :=
  sum (map (fun p => (f p - mean_of f ps) * (g p - mean_of g ps)) ps).

(** The coefficient of a list of shared observations, as [pearson] takes
    it from those sums. *)
Definition coefficient (ps : list (R * R)) : cell :=
  if Req_dec_T (sqrt (scatter fst fst ps * scatter snd snd ps)) 0
  then None
  else Some (scatter fst snd ps
             / sqrt (scatter fst fst ps * scatter snd snd ps)).

(** The number [fillna(v)] leaves in a cell. *)
Definition filled (v : R) (c : cell) : R :=
  match c with
  | Some x => x
  | None => v
  end.

(** Every row as long as the list of columns: what pandas keeps of any
    frame. *)
Definition well_formed (df : DataFrame) : Prop :=
  Forall (fun ur => List.length (snd ur) = List.length (columns df))
         (rows df).

(** ** The arithmetic in binary64 *)

Module Double.

#[local] Set Warnings "-inexact-float".
#[local] Open Scope float_scope.

(** A cell of a [float64] frame; a missing rating is [nan]. *)
Definition cell : Set := PrimFloat.float.

(** The sum pandas takes for a mean: the entries from left to right, a
    missing one counting for zero. *)
Definition nansum (r : list cell) : PrimFloat.float :=
  fold_left (fun acc x => acc + (if is_nan x then 0 else x)) r 0.

(** The number of entries that are not missing, as the double the sum
    is divided by. *)
Definition count (r : list cell) : PrimFloat.float :=
  fold_left (fun n x => if is_nan x then n else n + 1) r 0.

(** [row.mean()], and [df.mean(axis=1)] on one row: the sum over the
    count, [nan] for a row without any rating. *)
Definition nanmean (r : list cell) : PrimFloat.float := nansum r / count r.

(** [row.subtract(m)] *)
Definition subtract (r : list cell) (m : PrimFloat.float) : list cell :=
  map (fun x => x - m) r.

(** One turn of the centring loop, on the ratings of its user:
    [means_data_frame.loc[user].subtract(user_means[user])]. *)
Definition centred (r : list cell) : list cell := subtract r (nanmean r).

(** The prediction expression on the four numbers it looks up:
    [(s1 * r1 + s2 * r2) / (s1 + s2)]. *)
Definition prediction (s1 r1 s2 r2 : PrimFloat.float) : PrimFloat.float :=
  (s1 * r1 + s2 * r2) / (s1 + s2).

(** The reference ratings: [data], item by item, and the frame
    [pd.DataFrame(data, index=[...])], user by user. *)
Definition data : list (label * list cell) :=
  [ ("item-1", [7; 6; nan; 1; 1]);
    ("item-2", [6; 7; 3; 2; nan]);
    ("item-3", [7; nan; 3; 2; 1]);
    ("item-4", [4; 4; 1; 3; 2]);
    ("item-5", [5; 3; 1; 3; 3]);
    ("item-6", [4; 4; nan; 4; 3]) ].

Definition index : list label :=
  ["user-1"; "user-2"; "user-3"; "user-4"; "user-5"].

Definition data_frame : list (label * list cell) :=
  combine index
          (map (fun n => map (fun c => nth n (snd c) nan) data)
               (seq 0%nat (List.length index))).

(** [data_frame.loc[u]], as a list. *)
Definition ratings (u : label) : list cell :=
  match assoc u data_frame with
  | Some r => r
  | None => []
  end.

End Double.

(** * Properties *)

(** ** The reference data *)

Lemma data_frame_rows :
  data_frame = mkFrame
    ["item-1"; "item-2"; "item-3"; "item-4"; "item-5"; "item-6"]
    [ ("user-1", [Some 7; Some 6; Some 7; Some 4; Some 5; Some 4]);
      ("user-2", [Some 6; Some 7; None; Some 4; Some 3; Some 4]);
      ("user-3", [None; Some 3; Some 3; Some 1; Some 1; None]);
      ("user-4", [Some 1; Some 2; Some 2; Some 3; Some 3; Some 4]);
      ("user-5", [Some 1; None; Some 1; Some 2; Some 3; Some 3]) ].
Proof. reflexivity. Qed.

(** ** Look-ups *)

Lemma position_absent (k : label) (ks : list label) :
  ~ In k ks -> position k ks = None.
Proof.
  induction ks as [|k' ks IH]; intro H; [reflexivity|].
  cbn. destruct (String.eqb_spec k k') as [->|_].
  - exfalso. apply H. now left.
  - rewrite IH; [reflexivity|]. intro Hin. apply H. now right.
Qed.

Lemma assoc_absent {A : Type} (k : label) (l : list (label * A)) :
  ~ In k (map fst l) -> assoc k l = None.
Proof.
  induction l as [|[k' a] l IH]; intro H; [reflexivity|].
  cbn. destruct (String.eqb_spec k k') as [->|_].
  - exfalso. apply H. now left.
  - apply IH. intro Hin. apply H. now right.
Qed.

Lemma loc_absent (df : DataFrame) (u : label) :
  ~ In u (index df) -> loc df u = Raise (KeyError u).
Proof.
  intro H. unfold loc. now rewrite (assoc_absent u (rows df) H).
Qed.

Lemma getitem_absent (s : Series) (k : label) :
  ~ In k (s_index s) -> getitem s k = Raise (KeyError k).
Proof.
  intro H. unfold getitem. now rewrite (position_absent k _ H).
Qed.

Lemma item_absent (s : Series) (k : label) :
  ~ In k (s_index s) -> item s k = Raise (KeyError k).
Proof.
  intro H. unfold item. now rewrite (getitem_absent s k H).
Qed.

Lemma at_absent_row (df : DataFrame) (u i : label) :
  ~ In u (index df) -> at_ df u i = Raise (KeyError u).
Proof.
  intro H. unfold at_. now rewrite (loc_absent df u H).
Qed.

(** A look-up for a column the frame does not have raises, whatever the
    row: for the row if that is unknown too, for the column otherwise. *)
Lemma at_absent_column (df : DataFrame) (u i : label) :
  ~ In i (columns df) ->
  at_ df u i = Raise (KeyError u) \/ at_ df u i = Raise (KeyError i).
Proof.
  intro H. unfold at_, loc.
  destruct (assoc u (rows df)) as [r|]; cbn.
  - right. unfold getitem. cbn. now rewrite (position_absent i _ H).
  - now left.
Qed.

(** Look-ups raise nothing but [KeyError]. *)
Lemma at_raises (df : DataFrame) (u i : label) (e : exn) :
  at_ df u i = Raise e -> exists k, e = KeyError k.
Proof.
  unfold at_, loc, getitem.
  destruct (assoc u (rows df)) as [r|]; cbn.
  - destruct (position i (columns df)); cbn; intro H; inversion H.
    now exists i.
  - intro H. inversion H. now exists u.
Qed.

Lemma item_raises (s : Series) (k : label) (e : exn) :
  item s k = Raise e -> e = KeyError k.
Proof.
  unfold item, getitem.
  destruct (position k (s_index s)); cbn; intro H; now inversion H.
Qed.

(** ** Arithmetic on finite scalars *)

Lemma fdiv_finite (x y : R) : y <> 0 -> fdiv (Fin x) (Fin y) = Fin (x / y).
Proof.
  intro H. cbn. destruct (Req_dec_T y 0) as [E|_]; [contradiction|reflexivity].
Qed.

Lemma fdiv_zero (x : R) :
  fdiv (Fin x) (Fin 0) = if Req_dec_T x 0 then NaN else Inf (is_neg x).
Proof.
  cbn. destruct (Req_dec_T 0 0) as [_|N]; [reflexivity|now contradiction N].
Qed.

Lemma is_neg_true (x : R) : x < 0 -> is_neg x = true.
Proof. intro H. unfold is_neg. destruct (Rlt_dec x 0); [reflexivity|contradiction]. Qed.

Lemma is_neg_false (x : R) : 0 <= x -> is_neg x = false.
Proof. intro H. unfold is_neg. destruct (Rlt_dec x 0); [lra|reflexivity]. Qed.

(** The two-peer expression on finite inputs with a divisor other than
    zero. *)
Lemma prediction_finite (S D : DataFrame) (t p1 p2 i : label)
    (s1 s2 r1 r2 : R) :
  at_ S t p1 = Ok (Fin s1) -> at_ S t p2 = Ok (Fin s2) ->
  at_ D p1 i = Ok (Fin r1) -> at_ D p2 i = Ok (Fin r2) ->
  s1 + s2 <> 0 ->
  prediction S D t p1 p2 i = Ok (Fin ((s1 * r1 + s2 * r2) / (s1 + s2))).
Proof.
  intros H1 H2 H3 H4 Hd. unfold prediction.
  rewrite H1, H2, H3, H4. cbn [bind fmul fadd].
  now rewrite fdiv_finite.
Qed.

Lemma mean_prediction_finite (M : Series) (S D : DataFrame)
    (t p1 p2 i : label) (m s1 s2 r1 r2 : R) :
  item M t = Ok (Fin m) ->
  at_ S t p1 = Ok (Fin s1) -> at_ S t p2 = Ok (Fin s2) ->
  at_ D p1 i = Ok (Fin r1) -> at_ D p2 i = Ok (Fin r2) ->
  s1 + s2 <> 0 ->
  mean_prediction M S D t p1 p2 i
  = Ok (Fin (m + (s1 * r1 + s2 * r2) / (s1 + s2))).
Proof.
  intros H0 H1 H2 H3 H4 Hd. unfold mean_prediction.
  rewrite H0, H1, H2, H3, H4. cbn [bind fmul fadd].
  now rewrite fdiv_finite.
Qed.

(** The predictor for a list of peers, at two peers, is the expression of
    the notebooks. *)
Lemma predict_two_peers (S D : DataFrame) (t i p1 p2 : label) :
  predict S D t i p1 [p2] = prediction S D t p1 p2 i.
Proof.
  unfold predict, prediction, contribution. cbn [accumulate].
  destruct (at_ S t p1) as [s1|e1]; cbn [bind]; [|reflexivity].
  destruct (at_ D p1 i) as [r1|e2]; cbn [bind]; [|reflexivity].
  destruct (at_ S t p2) as [s2|e3]; cbn [bind]; [|reflexivity].
  destruct (at_ D p2 i) as [r2|e4]; cbn [bind]; reflexivity.
Qed.

Lemma mean_predict_two_peers (M : Series) (S D : DataFrame)
    (t i p1 p2 : label) :
  mean_predict M S D t i p1 [p2] = mean_prediction M S D t p1 p2 i.
Proof.
  unfold mean_predict, mean_prediction. rewrite predict_two_peers.
  unfold prediction.
  destruct (item M t) as [m|e0]; cbn [bind]; [|reflexivity].
  destruct (at_ S t p1) as [s1|e1]; cbn [bind]; [|reflexivity].
  destruct (at_ D p1 i) as [r1|e2]; cbn [bind]; [|reflexivity].
  destruct (at_ S t p2) as [s2|e3]; cbn [bind]; [|reflexivity].
  destruct (at_ D p2 i) as [r2|e4]; cbn [bind]; reflexivity.
Qed.

(** ** Mean-centring *)

Lemma assoc_In {A : Type} (k : label) (l : list (label * A)) (a : A) :
  assoc k l = Some a -> In k (map fst l).
Proof.
  induction l as [|[k' a'] l IH]; cbn; [discriminate|].
  destruct (String.eqb_spec k k') as [->|_]; intro H.
  - now left.
  - right. now apply IH.
Qed.

Lemma assoc_app_absent {A : Type} (k : label) (l1 l2 : list (label * A)) :
  ~ In k (map fst l1) -> assoc k (l1 ++ l2) = assoc k l2.
Proof.
  induction l1 as [|[k' a'] l1 IH]; cbn; intro H; [reflexivity|].
  destruct (String.eqb_spec k k') as [->|_].
  - exfalso. apply H. now left.
  - apply IH. intro Hin. apply H. now right.
Qed.

Lemma set_assoc_app_absent {A : Type} (k : label) (a a0 : A)
    (l1 l2 : list (label * A)) :
  ~ In k (map fst l1) ->
  set_assoc k a (l1 ++ (k, a0) :: l2) = l1 ++ (k, a) :: l2.
Proof.
  induction l1 as [|[k' a'] l1 IH]; cbn; intro H.
  - now rewrite String.eqb_refl.
  - destruct (String.eqb_spec k k') as [->|_].
    + exfalso. apply H. now left.
    + f_equal. apply IH. intro Hin. apply H. now right.
Qed.

(** The series of means holds, under the label of a row, the mean of that
    row. *)
Lemma getitem_means (l : list (label * list cell)) (u : label)
    (r : list cell) :
  assoc u l = Some r ->
  getitem (mkSeries (map fst l) (map nanmean (map snd l))) u
  = Ok (nanmean r).
Proof.
  unfold getitem. cbn [s_index s_values].
  induction l as [|[k' r'] l IH]; cbn; [discriminate|].
  destruct (String.eqb_spec u k') as [->|_]; intro H.
  - now inversion H.
  - specialize (IH H). destruct (position u (map fst l)); cbn.
    + exact IH.
    + discriminate.
Qed.

Lemma user_means_row (df : DataFrame) (u : label) (r : list cell) :
  assoc u (rows df) = Some r ->
  getitem (user_means_of df) u = Ok (nanmean r).
Proof. apply getitem_means. Qed.

(** The loop, from any point of its run: the rows gone through are
    centred, the others are as they were. *)
Lemma centre_loop (means : Series) (cols : list label)
    (todo done : list (label * list cell)) :
  NoDup (map fst (done ++ todo)) ->
  (forall u r, assoc u todo = Some r -> getitem means u = Ok (nanmean r)) ->
  fold_left (centre_step means) (map fst todo)
            (Ok (mkFrame cols (centred_rows done ++ todo)))
  = Ok (mkFrame cols (centred_rows (done ++ todo))).
Proof.
  revert done. induction todo as [|[u r] todo IH]; intros done Hnd Hm.
  - cbn. now rewrite !app_nil_r.
  - cbn [map fst fold_left].
    assert (Hu : ~ In u (map fst done) /\ ~ In u (map fst todo)).
    { rewrite map_app in Hnd. cbn in Hnd.
      apply NoDup_remove_2 in Hnd. rewrite in_app_iff in Hnd. tauto. }
    destruct Hu as [Hu1 Hu2].
    assert (Hu1' : ~ In u (map fst (centred_rows done))).
    { unfold centred_rows. rewrite map_map. cbn. exact Hu1. }
    assert (Hstep : centre_step means
                      (Ok (mkFrame cols (centred_rows done ++ (u, r) :: todo))) u
                    = Ok (mkFrame cols
                            (centred_rows (done ++ [(u, r)]) ++ todo))).
    { unfold centre_step, loc. cbn [bind rows columns].
      rewrite (assoc_app_absent u _ _ Hu1'). cbn [assoc].
      rewrite String.eqb_refl. cbn [bind].
      rewrite (Hm u r) by (cbn; now rewrite String.eqb_refl).
      cbn [bind]. unfold setloc. cbn [rows columns].
      rewrite (set_assoc_app_absent u _ r _ _ Hu1').
      unfold centred_rows at 2. rewrite map_app. cbn [map fst snd].
      rewrite <- app_assoc. cbn [app].
      unfold centred. cbn [subtract s_values s_index]. reflexivity. }
    rewrite Hstep.
    rewrite IH.
    + now rewrite <- app_assoc.
    + now rewrite <- app_assoc.
    + intros u' r' H'. apply Hm. cbn.
      destruct (String.eqb_spec u' u) as [->|_]; [|exact H'].
      exfalso. apply Hu2. eapply assoc_In. exact H'.
Qed.

(** The mean-centring cell ends, and leaves every row centred. *)
Lemma means_data_frame_rows (df : DataFrame) :
  NoDup (index df) ->
  means_data_frame_of df
  = Ok (mkFrame (columns df) (centred_rows (rows df))).
Proof.
  intro Hnd. unfold means_data_frame_of, index.
  destruct df as [cols rs]. cbn [rows columns] in *.
  apply (centre_loop (user_means_of (mkFrame cols rs)) cols rs []).
  - exact Hnd.
  - intros u r H. now apply user_means_row.
Qed.

Lemma assoc_centred_rows (l : list (label * list cell)) (u : label) :
  assoc u (centred_rows l) = option_map centred (assoc u l).
Proof.
  induction l as [|[k r] l IH]; cbn; [reflexivity|].
  destruct (String.eqb u k); [reflexivity|exact IH].
Qed.

Lemma nth_centred (r : list cell) (n : nat) :
  nth n (centred r) None
  = match nth n r None, nanmean r with
    | Some x, Some m => Some (x - m)
    | _, _ => None
    end.
Proof.
  unfold centred, subtract. cbn [s_values].
  set (f := fun c : cell => match c, nanmean r with
                            | Some x, Some y => Some (x - y)
                            | _, _ => None
                            end).
  change (nth n (map f r) None = f (nth n r None)).
  change (@None R) with (f None) at 1. apply map_nth.
Qed.

(** A rating in the centred frame is the rating less the mean of its
    row. *)
Lemma at_centred (D D' : DataFrame) (u i : label) (x m : R) :
  NoDup (index D) ->
  means_data_frame_of D = Ok D' ->
  at_ D u i = Ok (Fin x) ->
  item (user_means_of D) u = Ok (Fin m) ->
  at_ D' u i = Ok (Fin (x - m)).
Proof.
  intros Hnd HD' Hx Hm.
  rewrite (means_data_frame_rows D Hnd) in HD'. inversion HD'; subst D'.
  clear HD'. unfold at_, loc in *. cbn [rows columns].
  rewrite assoc_centred_rows.
  destruct (assoc u (rows D)) as [r|] eqn:Hr; cbn in Hx; [|discriminate].
  cbn [option_map bind].
  unfold item in Hm. rewrite (user_means_row D u r Hr) in Hm. cbn in Hm.
  unfold getitem in *. cbn [s_index s_values] in *.
  destruct (position i (columns D)) as [n|]; cbn in Hx; [|discriminate].
  cbn [bind]. rewrite nth_centred.
  destruct (nth n r None) as [x'|]; cbn in Hx; [|discriminate].
  destruct (nanmean r) as [m'|]; cbn in Hm; [|discriminate].
  inversion Hx. inversion Hm. reflexivity.
Qed.

Lemma sum_shift (m : R) (l : list R) :
  sum (map (fun x => x - m) l) = sum l - INR (List.length l) * m.
Proof.
  induction l as [|x l IH].
  - cbn. lra.
  - cbn [map sum fold_right List.length]. fold (sum (map (fun x => x - m) l)).
    fold (sum l). rewrite IH, S_INR. lra.
Qed.

Lemma observed_centred (r : list cell) (m : R) :
  nanmean r = Some m ->
  observed (centred r) = map (fun x => x - m) (observed r).
Proof.
  intro Hm. unfold centred, subtract. cbn [s_values]. rewrite Hm. clear Hm.
  induction r as [|[x|] r IH]; cbn; [reflexivity| |exact IH].
  now rewrite IH.
Qed.

Lemma nanmean_observed (r : list cell) :
  observed r <> [] ->
  nanmean r = Some (sum (observed r) / INR (List.length (observed r))).
Proof.
  intro H. unfold nanmean. destruct (observed r); [contradiction|reflexivity].
Qed.

(** The ratings of a centred row have mean zero. *)
Lemma nanmean_centred (r : list cell) :
  observed r <> [] -> nanmean (centred r) = Some 0.
Proof.
  intro Hobs.
  pose proof (nanmean_observed r Hobs) as Hm.
  pose proof (observed_centred r _ Hm) as Hc.
  assert (Hn : INR (List.length (observed r)) <> 0).
  { apply not_0_INR. destruct (observed r); [contradiction|discriminate]. }
  rewrite nanmean_observed.
  - rewrite Hc, sum_shift, length_map. f_equal. field. exact Hn.
  - rewrite Hc. destruct (observed r); [contradiction|discriminate].
Qed.

Lemma observed_centred_silent (r : list cell) :
  observed r = [] -> observed (centred r) = [].
Proof.
  intro E. unfold centred, subtract. cbn [s_values].
  induction r as [|[y|] r IH]; cbn in *;
    [reflexivity|discriminate|now apply IH].
Qed.

(** A row without any rating has no mean, before centring and after. *)
Lemma nanmean_silent (r : list cell) :
  observed r = [] -> nanmean r = None /\ nanmean (centred r) = None.
Proof.
  intro E. unfold nanmean.
  now rewrite (observed_centred_silent r E), E.
Qed.

(** ** Bounds on quotients *)

Lemma sqrt_positive (q : R) : 0 < q -> 0 < sqrt q /\ sqrt q * sqrt q = q.
Proof.
  intro H. split; [now apply sqrt_lt_R0|apply sqrt_sqrt; lra].
Qed.

Lemma quotient_bounds (n d lo hi : R) :
  0 < d -> lo * d < n -> n < hi * d -> lo < n / d < hi.
Proof.
  intros Hd H1 H2.
  assert (Hi : 0 < / d) by now apply Rinv_0_lt_compat.
  assert (E1 : n / d - lo = (n - lo * d) * / d) by (field; lra).
  assert (E2 : hi - n / d = (hi * d - n) * / d) by (field; lra).
  assert (P1 : 0 < (n - lo * d) * / d) by (apply Rmult_lt_0_compat; lra).
  assert (P2 : 0 < (hi * d - n) * / d) by (apply Rmult_lt_0_compat; lra).
  lra.
Qed.

Lemma quotient_bounds_le (n d lo hi : R) :
  0 < d -> lo * d <= n -> n <= hi * d -> lo <= n / d <= hi.
Proof.
  intros Hd H1 H2.
  assert (Hi : 0 < / d) by now apply Rinv_0_lt_compat.
  assert (E1 : n / d - lo = (n - lo * d) * / d) by (field; lra).
  assert (E2 : hi - n / d = (hi * d - n) * / d) by (field; lra).
  assert (P1 : 0 <= (n - lo * d) * / d) by (apply Rmult_le_pos; lra).
  assert (P2 : 0 <= (hi * d - n) * / d) by (apply Rmult_le_pos; lra).
  lra.
Qed.

(** [n / sqrt q] between two positive bounds, by squares. *)
Lemma quot_sqrt_bounds (n q lo hi : R) :
  0 < n -> 0 < q -> 0 < lo -> 0 < hi ->
  q * (lo * lo) < n * n -> n * n < q * (hi * hi) ->
  lo < n / sqrt q < hi.
Proof.
  intros Hn Hq Hlo Hhi H1 H2.
  destruct (sqrt_positive q Hq) as [Ha Haa].
  set (a := sqrt q) in *.
  assert (E : forall c, (c * a) * (c * a) = q * (c * c)).
  { intro c. rewrite <- Haa. ring. }
  apply quotient_bounds; [exact Ha| |].
  - destruct (Rlt_le_dec (lo * a) n) as [L|L]; [exact L|]. exfalso.
    assert (n * n <= (lo * a) * (lo * a)) by (apply Rmult_le_compat; lra).
    rewrite E in *. lra.
  - destruct (Rlt_le_dec n (hi * a)) as [L|L]; [exact L|]. exfalso.
    assert (0 < hi * a) by (apply Rmult_lt_0_compat; lra).
    assert ((hi * a) * (hi * a) <= n * n) by (apply Rmult_le_compat; lra).
    rewrite E in *. lra.
Qed.

Lemma quot_sqrt_negative (n q : R) : n < 0 -> 0 < q -> n / sqrt q < 0.
Proof.
  intros Hn Hq. destruct (sqrt_positive q Hq) as [Ha _].
  unfold Rdiv. assert (0 < / sqrt q) by now apply Rinv_0_lt_compat. nra.
Qed.

Lemma approximately_between (r : result float) (y v eps : R) :
  r = Ok (Fin y) -> v - eps < y < v + eps -> approximately r v eps.
Proof.
  intros E B. exists y. split; [exact E|]. apply Rabs_def1; lra.
Qed.

(** ** Cosine similarity of the reference ratings *)

Lemma cosine_similarity_raw_frame :
  Cosine.cosine_similarity_raw = Ok raw_similarity.
Proof. reflexivity. Qed.

Lemma dot_scaled (a b : R) (x y : list R) :
  a <> 0 -> b <> 0 ->
  dot (map (fun v => v / a) x) (map (fun v => v / b) y) = dot x y / (a * b).
Proof.
  intros Ha Hb. unfold dot. revert y.
  induction x as [|v x IH]; intros [|w y]; cbn; try (field; now split).
  fold (sum (map (fun p => fst p * snd p)
                 (combine (map (fun v => v / a) x) (map (fun v => v / b) y)))).
  fold (sum (map (fun p => fst p * snd p) (combine x y))).
  rewrite IH. field. now split.
Qed.

(** The cosine of two rows that are not null: their product over the
    root of the product of their squares. *)
Lemma cosine_entry (x y : list R) (n q : R) :
  0 < sum (map (fun a => a * a) x) ->
  0 < sum (map (fun a => a * a) y) ->
  sum (map (fun a => a * a) x) * sum (map (fun a => a * a) y) = q ->
  dot x y = n ->
  dot (normalize x) (normalize y) = n / sqrt q.
Proof.
  intros Hx Hy Hq Hn. unfold normalize, norm.
  assert (Px : 0 < sqrt (sum (map (fun a => a * a) x)))
    by now apply sqrt_lt_R0.
  assert (Py : 0 < sqrt (sum (map (fun a => a * a) y)))
    by now apply sqrt_lt_R0.
  destruct (Req_dec_T (sqrt (sum (map (fun a => a * a) x))) 0) as [E|_];
    [lra|].
  destruct (Req_dec_T (sqrt (sum (map (fun a => a * a) y))) 0) as [E|_];
    [lra|].
  rewrite dot_scaled by lra.
  rewrite <- sqrt_mult by lra. now rewrite Hq, Hn.
Qed.

Ltac cosine_eval :=
  do 2 f_equal; apply cosine_entry; unfold dot;
  cbn [map combine fst snd sum fold_right]; lra.

Lemma raw_user_3_user_1 :
  at_ raw_similarity "user-3" "user-1" = Ok (Fin (48 / sqrt 3820)).
Proof.
  change (Ok (Fin (dot (normalize [0; 3; 3; 1; 1; 0])
                       (normalize [7; 6; 7; 4; 5; 4])))
          = Ok (Fin (48 / sqrt 3820))).
  cosine_eval.
Qed.

Lemma raw_user_3_user_2 :
  at_ raw_similarity "user-3" "user-2" = Ok (Fin (28 / sqrt 2520)).
Proof.
  change (Ok (Fin (dot (normalize [0; 3; 3; 1; 1; 0])
                       (normalize [6; 7; 0; 4; 3; 4])))
          = Ok (Fin (28 / sqrt 2520))).
  cosine_eval.
Qed.

Lemma raw_user_3_user_4 :
  at_ raw_similarity "user-3" "user-4" = Ok (Fin (18 / sqrt 860)).
Proof.
  change (Ok (Fin (dot (normalize [0; 3; 3; 1; 1; 0])
                       (normalize [1; 2; 2; 3; 3; 4])))
          = Ok (Fin (18 / sqrt 860))).
  cosine_eval.
Qed.

Lemma raw_user_3_user_5 :
  at_ raw_similarity "user-3" "user-5" = Ok (Fin (8 / sqrt 480)).
Proof.
  change (Ok (Fin (dot (normalize [0; 3; 3; 1; 1; 0])
                       (normalize [1; 0; 1; 2; 3; 3])))
          = Ok (Fin (8 / sqrt 480))).
  cosine_eval.
Qed.

(** The similarities of user-3, to four places. *)
Lemma raw_user_3_bounds :
  0.77662 < 48 / sqrt 3820 < 0.77663 /\
  0.55777 < 28 / sqrt 2520 < 0.55778 /\
  0.61379 < 18 / sqrt 860 < 0.61380 /\
  0.36514 < 8 / sqrt 480 < 0.36515.
Proof.
  split; [|split; [|split]]; apply quot_sqrt_bounds; lra.
Qed.

(** ** Pearson correlation of the reference ratings *)

(** Pearson's coefficient of two given columns: [n / sqrt q]. *)
Ltac pearson_eval n q :=
  unfold pearson; cbn [paired List.length map fst snd sum fold_right INR];
  match goal with
  | |- context [sqrt ?e] => replace e with q by field
  end;
  match goal with
  | |- context [Some (?e / sqrt q)] => replace e with n by field
  end;
  destruct (Req_dec_T (sqrt q) 0) as [E|_];
  [ exfalso; assert (0 < sqrt q) by (apply sqrt_lt_R0; lra); lra
  | reflexivity ].

Lemma correlation_user_3_user_1 :
  at_ Pearson.correlation "user-3" "user-1" = Ok (Fin (4 / sqrt 20)).
Proof.
  change (Ok (of_cell (pearson [None; Some 3; Some 3; Some 1; Some 1; None]
                               [Some 7; Some 6; Some 7; Some 4; Some 5; Some 4]))
          = Ok (Fin (4 / sqrt 20))).
  replace (pearson _ _) with (Some (4 / sqrt 20)); [reflexivity|].
  symmetry. pearson_eval 4 20.
Qed.

Lemma correlation_user_3_user_2 :
  at_ Pearson.correlation "user-3" "user-2"
  = Ok (Fin ((14 / 3) / sqrt (208 / 9))).
Proof.
  change (Ok (of_cell (pearson [None; Some 3; Some 3; Some 1; Some 1; None]
                               [Some 6; Some 7; None; Some 4; Some 3; Some 4]))
          = Ok (Fin ((14 / 3) / sqrt (208 / 9)))).
  replace (pearson _ _) with (Some ((14 / 3) / sqrt (208 / 9)));
    [reflexivity|].
  symmetry. pearson_eval (14 / 3) (208 / 9).
Qed.

Lemma correlation_user_3_user_4 :
  at_ Pearson.correlation "user-3" "user-4" = Ok (Fin (-2 / sqrt 4)).
Proof.
  change (Ok (of_cell (pearson [None; Some 3; Some 3; Some 1; Some 1; None]
                               [Some 1; Some 2; Some 2; Some 3; Some 3; Some 4]))
          = Ok (Fin (-2 / sqrt 4))).
  replace (pearson _ _) with (Some (-2 / sqrt 4)); [reflexivity|].
  symmetry. pearson_eval (-2) 4.
Qed.

Lemma correlation_user_3_user_5 :
  at_ Pearson.correlation "user-3" "user-5"
  = Ok (Fin (-2 / sqrt (16 / 3))).
Proof.
  change (Ok (of_cell (pearson [None; Some 3; Some 3; Some 1; Some 1; None]
                               [Some 1; None; Some 1; Some 2; Some 3; Some 3]))
          = Ok (Fin (-2 / sqrt (16 / 3)))).
  replace (pearson _ _) with (Some (-2 / sqrt (16 / 3))); [reflexivity|].
  symmetry. pearson_eval (-2) (16 / 3).
Qed.

Lemma correlation_user_3_bounds :
  0.894427 < 4 / sqrt 20 < 0.894428 /\
  0.970725 < (14 / 3) / sqrt (208 / 9) < 0.970726 /\
  -2 / sqrt 4 < 0 /\
  -2 / sqrt (16 / 3) < 0.
Proof.
  split; [|split; [|split]];
    try (apply quot_sqrt_bounds; lra); apply quot_sqrt_negative; lra.
Qed.

(** ** Means of the reference ratings *)

Lemma data_frame_index_NoDup : NoDup (index data_frame).
Proof.
  cbn. repeat constructor; cbn; intuition discriminate.
Qed.

Ltac mean_eval :=
  unfold nanmean; cbn [observed of_cell]; do 2 f_equal;
  cbn [sum fold_right List.length INR]; field.

Lemma user_means_user_1 :
  item (user_means_of data_frame) "user-1" = Ok (Fin (11 / 2)).
Proof.
  change (Ok (of_cell (nanmean [Some 7; Some 6; Some 7; Some 4; Some 5; Some 4]))
          = Ok (Fin (11 / 2))).
  mean_eval.
Qed.

Lemma user_means_user_2 :
  item (user_means_of data_frame) "user-2" = Ok (Fin (24 / 5)).
Proof.
  change (Ok (of_cell (nanmean [Some 6; Some 7; None; Some 4; Some 3; Some 4]))
          = Ok (Fin (24 / 5))).
  mean_eval.
Qed.

Lemma user_means_user_3 :
  item (user_means_of data_frame) "user-3" = Ok (Fin 2).
Proof.
  change (Ok (of_cell (nanmean [None; Some 3; Some 3; Some 1; Some 1; None]))
          = Ok (Fin 2)).
  mean_eval.
Qed.

(** ** Correlation of the opposed ratings *)

Lemma sqrt_of_square (a q : R) : 0 <= a -> a * a = q -> sqrt q = a.
Proof.
  intros Ha E. rewrite <- E. now apply sqrt_square.
Qed.

Lemma opposed_correlation_t_a :
  at_ opposed_correlation "t" "a" = Ok (Fin 1).
Proof.
  change (Ok (of_cell (pearson [Some 1; Some 2; Some 3; None]
                               [Some 2; Some 4; Some 6; Some 3]))
          = Ok (Fin 1)).
  replace (pearson _ _) with (Some (4 / sqrt 16)).
  - cbn. rewrite (sqrt_of_square 4 16) by lra. do 2 f_equal. field.
  - symmetry. pearson_eval 4 16.
Qed.

Lemma opposed_correlation_t_b :
  at_ opposed_correlation "t" "b" = Ok (Fin (-1)).
Proof.
  change (Ok (of_cell (pearson [Some 1; Some 2; Some 3; None]
                               [Some 3; Some 2; Some 1; Some 5]))
          = Ok (Fin (-1))).
  replace (pearson _ _) with (Some (-2 / sqrt 4)).
  - cbn. rewrite (sqrt_of_square 2 4) by lra. do 2 f_equal. field.
  - symmetry. pearson_eval (-2) 4.
Qed.

(** ** The expressions of the notebooks as a weighted average *)

Ltac lookups_nonzero :=
  pose proof raw_user_3_bounds; pose proof correlation_user_3_bounds; lra.

(** C1.  Whatever the two frames, the target, the item and the two chosen
    peers, as soon as the similarities and ratings looked up are numbers
    and the similarities do not cancel: the uncentred expression returns
    the sum of similarity times rating over the sum of the similarities;
    the centred expression, run on the frame the mean-centring cell
    produces, returns the same quotient of the peers' ratings less their
    own means, with the mean of the target added. *)
Theorem prediction_is_weighted_average
    (S D : DataFrame) (t p1 p2 i : label) (s1 s2 r1 r2 : R) :
  at_ S t p1 = Ok (Fin s1) -> at_ S t p2 = Ok (Fin s2) ->
  at_ D p1 i = Ok (Fin r1) -> at_ D p2 i = Ok (Fin r2) ->
  s1 + s2 <> 0 ->
  (forall m m1 m2,
     prediction S D t p1 p2 i
     = Ok (Fin (weighted_average false m
                  [(s1, ratingValue false r1 m1);
                   (s2, ratingValue false r2 m2)]))) /\
  (forall D' m m1 m2,
     NoDup (index D) ->
     means_data_frame_of D = Ok D' ->
     item (user_means_of D) t = Ok (Fin m) ->
     item (user_means_of D) p1 = Ok (Fin m1) ->
     item (user_means_of D) p2 = Ok (Fin m2) ->
     mean_prediction (user_means_of D) S D' t p1 p2 i
     = Ok (Fin (weighted_average true m
                  [(s1, ratingValue true r1 m1);
                   (s2, ratingValue true r2 m2)]))).
Proof.
  intros Hs1 Hs2 Hr1 Hr2 Hd. split.
  - intros m m1 m2.
    rewrite (prediction_finite S D t p1 p2 i s1 s2 r1 r2) by assumption.
    do 2 f_equal. unfold weighted_average, weighted_sum, normalizer.
    cbn. field. lra.
  - intros D' m m1 m2 Hnd HD' Hm Hm1 Hm2.
    pose proof (at_centred D D' p1 i r1 m1 Hnd HD' Hr1 Hm1) as Hc1.
    pose proof (at_centred D D' p2 i r2 m2 Hnd HD' Hr2 Hm2) as Hc2.
    rewrite (mean_prediction_finite (user_means_of D) S D' t p1 p2 i
               m s1 s2 (r1 - m1) (r2 - m2)) by assumption.
    do 2 f_equal. unfold weighted_average, weighted_sum, normalizer.
    cbn. field. lra.
Qed.

Lemma prediction_is_weighted_average_witness :
  prediction Pearson.correlation data_frame
             "user-3" "user-1" "user-2" "item-1"
  = Ok (Fin (weighted_average false 2
               [(4 / sqrt 20, ratingValue false 7 (11 / 2));
                ((14 / 3) / sqrt (208 / 9), ratingValue false 6 (24 / 5))]))
  /\
  mean_prediction (user_means_of data_frame) Pearson.correlation
                  (mkFrame (columns data_frame)
                           (centred_rows (rows data_frame)))
                  "user-3" "user-1" "user-2" "item-1"
  = Ok (Fin (weighted_average true 2
               [(4 / sqrt 20, ratingValue true 7 (11 / 2));
                ((14 / 3) / sqrt (208 / 9), ratingValue true 6 (24 / 5))])).
Proof.
  destruct (prediction_is_weighted_average
              Pearson.correlation data_frame
              "user-3" "user-1" "user-2" "item-1"
              (4 / sqrt 20) ((14 / 3) / sqrt (208 / 9)) 7 6
              correlation_user_3_user_1 correlation_user_3_user_2
              eq_refl eq_refl) as [H1 H2].
  - lookups_nonzero.
  - split.
    + apply H1.
    + apply H2.
      * exact data_frame_index_NoDup.
      * exact (means_data_frame_rows data_frame data_frame_index_NoDup).
      * exact user_means_user_3.
      * exact user_means_user_1.
      * exact user_means_user_2.
Defined.

(** ** Failures *)

(** C5, as the notebooks have it.  Where the similarities of the two
    peers sum to zero, and all the values looked up are numbers, the
    expressions raise nothing: the division is carried out and gives NaN
    when the weighted sum is zero as well, and otherwise the infinity of
    the sign of the weighted sum; the mean added by the centred
    expression changes nothing to that. *)
Theorem zero_normalizer_is_divided
    (M : Series) (S D : DataFrame) (t p1 p2 i : label) (s1 s2 r1 r2 : R) :
  at_ S t p1 = Ok (Fin s1) -> at_ S t p2 = Ok (Fin s2) ->
  at_ D p1 i = Ok (Fin r1) -> at_ D p2 i = Ok (Fin r2) ->
  s1 + s2 = 0 ->
  let n := s1 * r1 + s2 * r2 in
  let q := if Req_dec_T n 0 then NaN else Inf (is_neg n) in
  prediction S D t p1 p2 i = Ok q /\
  (forall m, item M t = Ok (Fin m) ->
             mean_prediction M S D t p1 p2 i = Ok q) /\
  (n = 0 -> q = NaN) /\ (n < 0 -> q = Inf true) /\ (0 < n -> q = Inf false).
Proof.
  intros Hs1 Hs2 Hr1 Hr2 Hz n q.
  assert (Hq : fdiv (Fin n) (Fin (s1 + s2)) = q).
  { rewrite Hz. apply fdiv_zero. }
  split; [|split; [|split; [|split]]].
  - unfold prediction. rewrite Hs1, Hs2, Hr1, Hr2. cbn [bind fmul fadd].
    now rewrite <- Hq.
  - intros m Hm. unfold mean_prediction.
    rewrite Hm, Hs1, Hs2, Hr1, Hr2. cbn [bind fmul fadd].
    fold n. rewrite Hq. unfold q.
    destruct (Req_dec_T n 0); reflexivity.
  - intro E. unfold q. destruct (Req_dec_T n 0); [reflexivity|contradiction].
  - intro L. unfold q. destruct (Req_dec_T n 0); [lra|].
    now rewrite is_neg_true.
  - intro L. unfold q. destruct (Req_dec_T n 0); [lra|].
    rewrite is_neg_false; [reflexivity|lra].
Qed.

Lemma zero_normalizer_is_divided_witness :
  prediction opposed_correlation opposed_ratings "t" "a" "b" "w"
  = Ok (if Req_dec_T (1 * 3 + -1 * 5) 0 then NaN
        else Inf (is_neg (1 * 3 + -1 * 5))).
Proof.
  refine (proj1 (zero_normalizer_is_divided
                   (user_means_of opposed_ratings)
                   opposed_correlation opposed_ratings "t" "a" "b" "w"
                   1 (-1) 3 5
                   opposed_correlation_t_a opposed_correlation_t_b
                   eq_refl eq_refl _)).
  lra.
Defined.

(** C5 as stated does not hold: on the opposed ratings the correlations of
    [t] with its two peers are 1 and -1, their sum is zero, and the
    prediction for [w] is no failure but minus infinity. *)
Lemma zero_normalizer_not_refused :
  at_ opposed_correlation "t" "a" = Ok (Fin 1) /\
  at_ opposed_correlation "t" "b" = Ok (Fin (-1)) /\
  1 + -1 = 0 /\
  prediction opposed_correlation opposed_ratings "t" "a" "b" "w"
  = Ok (Inf true).
Proof.
  split; [exact opposed_correlation_t_a|].
  split; [exact opposed_correlation_t_b|].
  split; [lra|].
  unfold prediction.
  rewrite opposed_correlation_t_a, opposed_correlation_t_b.
  change (at_ opposed_ratings "a" "w") with (@Ok float (Fin 3)).
  change (at_ opposed_ratings "b" "w") with (@Ok float (Fin 5)).
  cbn [bind fmul fadd fdiv].
  destruct (Req_dec_T (1 + -1) 0) as [_|N]; [|exfalso; lra].
  destruct (Req_dec_T (1 * 3 + -1 * 5) 0) as [E|_]; [exfalso; lra|].
  rewrite is_neg_true by lra. reflexivity.
Qed.

(** C6.  A target that is no row of the similarity frame, or an item that
    is no column of the rating frame, makes both expressions raise
    [KeyError], the exception of an unknown label; so does a target that
    is no row of the rating frame, the similarity frame having the rows of
    the rating frame it was computed from, and, for the centred
    expression, a target that the series of means does not have.  Nothing
    is returned in its place. *)
Theorem unknown_entity_raises
    (M : Series) (S D : DataFrame) (t p1 p2 i : label) :
  (~ In t (index S) \/
   (index S = index D /\ ~ In t (index D)) \/
   ~ In i (columns D) ->
   exists k, prediction S D t p1 p2 i = Raise (KeyError k)) /\
  (~ In t (s_index M) \/
   ~ In t (index S) \/
   (index S = index D /\ ~ In t (index D)) \/
   ~ In i (columns D) ->
   exists k, mean_prediction M S D t p1 p2 i = Raise (KeyError k)).
Proof.
  assert (P : ~ In t (index S) \/ ~ In i (columns D) ->
              exists k, prediction S D t p1 p2 i = Raise (KeyError k)).
  { intros [Ht|Hi]; unfold prediction.
    - exists t. now rewrite (at_absent_row S t p1 Ht).
    - destruct (at_ S t p1) as [s1|e] eqn:E1; cbn [bind].
      + destruct (at_absent_column D p1 i Hi) as [E|E]; rewrite E;
          cbn [bind]; eauto.
      + destruct (at_raises S t p1 e E1) as [k ->]. now exists k. }
  assert (Q : ~ In t (index S) \/
              (index S = index D /\ ~ In t (index D)) \/
              ~ In i (columns D) ->
              ~ In t (index S) \/ ~ In i (columns D)).
  { intros [H|[[E H]|H]]; [now left| |now right].
    left. now rewrite E. }
  split; [intro H; exact (P (Q H))|].
  intros [Hm|H].
  - exists t. unfold mean_prediction. now rewrite (item_absent M t Hm).
  - unfold mean_prediction.
    destruct (item M t) as [m|e] eqn:Em; cbn [bind].
    + destruct (P (Q H)) as [k Hk]. exists k. unfold prediction in Hk.
      destruct (at_ S t p1) as [s1|e1]; cbn [bind] in *; [|exact Hk].
      destruct (at_ D p1 i) as [r1|e2]; cbn [bind] in *; [|exact Hk].
      destruct (at_ S t p2) as [s2|e3]; cbn [bind] in *; [|exact Hk].
      destruct (at_ D p2 i) as [r2|e4]; cbn [bind] in *; [|exact Hk].
      discriminate Hk.
    + exists t. now rewrite (item_raises M t e Em).
Qed.

Lemma unknown_entity_raises_witness :
  (exists k, prediction Pearson.correlation data_frame
                        "user-9" "user-1" "user-2" "item-1"
             = Raise (KeyError k)) /\
  (exists k, mean_prediction (user_means_of data_frame)
                             Pearson.correlation data_frame
                             "user-3" "user-1" "user-2" "item-7"
             = Raise (KeyError k)).
Proof.
  split.
  - apply (proj1 (unknown_entity_raises (user_means_of data_frame)
                    Pearson.correlation data_frame
                    "user-9" "user-1" "user-2" "item-1")).
    right. left. split; [reflexivity|]. cbn. intuition discriminate.
  - apply (proj2 (unknown_entity_raises (user_means_of data_frame)
                    Pearson.correlation data_frame
                    "user-3" "user-1" "user-2" "item-7")).
    right. right. right. cbn. intuition discriminate.
Defined.

(** ** One neighbour *)

(** C7.  With the entity itself as its one neighbour, a similarity to
    itself of 1 and a rating [r] of the item, the uncentred predictor
    returns [r]. *)
Theorem self_neighbor_returns_rating
    (S D : DataFrame) (t i : label) (r : R) :
  at_ S t t = Ok (Fin 1) ->
  at_ D t i = Ok (Fin r) ->
  predict S D t i t [] = Ok (Fin r).
Proof.
  intros Hs Hr. unfold predict, contribution.
  rewrite Hs, Hr. cbn [bind accumulate fmul].
  rewrite fdiv_finite by lra. do 2 f_equal. field.
Qed.

Lemma self_neighbor_returns_rating_witness :
  predict raw_similarity data_frame "user-1" "item-1" "user-1" []
  = Ok (Fin 7).
Proof.
  apply self_neighbor_returns_rating; [|reflexivity].
  change (Ok (Fin (dot (normalize [7; 6; 7; 4; 5; 4])
                       (normalize [7; 6; 7; 4; 5; 4])))
          = Ok (Fin 1)).
  do 2 f_equal.
  rewrite (cosine_entry [7; 6; 7; 4; 5; 4] [7; 6; 7; 4; 5; 4]
             191 (191 * 191));
    try (unfold dot; cbn [map combine fst snd sum fold_right]; lra).
  rewrite (sqrt_of_square 191 (191 * 191)) by lra. field.
Defined.

(** C8.  With one neighbour of similarity other than zero whose centred
    rating is [r - mean_p], the centred predictor returns
    [mean_t + r - mean_p] for a target of mean [mean_t]. *)
Theorem centering_round_trip
    (M : Series) (S D' : DataFrame) (t p i : label) (s r mean_t mean_p : R) :
  item M t = Ok (Fin mean_t) ->
  at_ S t p = Ok (Fin s) ->
  s <> 0 ->
  at_ D' p i = Ok (Fin (r - mean_p)) ->
  mean_predict M S D' t i p [] = Ok (Fin (mean_t + r - mean_p)).
Proof.
  intros Hm Hs Hnz Hc. unfold mean_predict, predict, contribution.
  rewrite Hm, Hs, Hc. cbn [bind accumulate fmul].
  rewrite fdiv_finite by exact Hnz. cbn [bind fadd].
  do 2 f_equal. field. exact Hnz.
Qed.

Lemma centering_round_trip_witness :
  mean_predict (user_means_of data_frame) Pearson.correlation
               (mkFrame (columns data_frame)
                        (centred_rows (rows data_frame)))
               "user-3" "item-1" "user-1" []
  = Ok (Fin (2 + 7 - 11 / 2)).
Proof.
  apply (centering_round_trip (user_means_of data_frame)
           Pearson.correlation _ "user-3" "user-1" "item-1" (4 / sqrt 20)).
  - exact user_means_user_3.
  - exact correlation_user_3_user_1.
  - lookups_nonzero.
  - apply (at_centred data_frame).
    + exact data_frame_index_NoDup.
    + exact (means_data_frame_rows data_frame data_frame_index_NoDup).
    + reflexivity.
    + exact user_means_user_1.
Defined.

(** ** Mean-centring *)

(** C9, in exact arithmetic.  For every row of a frame with distinct row
    labels, the mean-centring cell ends and leaves, under the same label,
    a row in which the entries that were missing are missing still and
    the ratings, where no subtraction rounds, sum to zero; so their mean,
    which the row has as soon as the user has rated anything, is zero,
    also as [mean(axis=1)] of the centred frame gives it.  In binary64
    the mean is zero up to rounding only, as the ratings of user-2 show
    below. *)
Theorem mean_centering_invariant
    (df : DataFrame) (u : label) (r : list cell) :
  NoDup (index df) ->
  loc df u = Ok (mkSeries (columns df) r) ->
  exists df' r',
    means_data_frame_of df = Ok df' /\
    index df' = index df /\
    loc df' u = Ok (mkSeries (columns df) r') /\
    (forall n, nth n r None = None -> nth n r' None = None) /\
    (forall i, at_ df u i = Ok NaN -> at_ df' u i = Ok NaN) /\
    sum (observed r') = 0 /\
    (observed r <> [] ->
     nanmean r' = Some 0 /\ item (mean_axis1 df') u = Ok (Fin 0)).
Proof.
  intros Hnd Hloc.
  assert (Hr : assoc u (rows df) = Some r).
  { unfold loc in Hloc. destruct (assoc u (rows df)) as [r0|];
      inversion Hloc. reflexivity. }
  exists (mkFrame (columns df) (centred_rows (rows df))), (centred r).
  assert (Hr' : assoc u (centred_rows (rows df)) = Some (centred r)).
  { now rewrite assoc_centred_rows, Hr. }
  assert (Hmiss : forall n, nth n r None = None ->
                            nth n (centred r) None = None).
  { intros n Hn. now rewrite nth_centred, Hn. }
  split; [now apply means_data_frame_rows|].
  split.
  { unfold index, centred_rows. cbn [rows]. rewrite map_map. reflexivity. }
  split; [unfold loc; cbn [rows columns]; now rewrite Hr'|].
  split; [exact Hmiss|].
  split.
  { intros i. unfold at_, loc. cbn [rows columns]. rewrite Hr, Hr'.
    cbn [bind]. unfold getitem. cbn [s_index s_values].
    destruct (position i (columns df)) as [n|]; cbn [bind]; [|discriminate].
    intro H. rewrite Hmiss; [reflexivity|].
    destruct (nth n r None); [discriminate|reflexivity]. }
  split.
  { destruct (observed r) as [|x l] eqn:Eo.
    - now rewrite (observed_centred_silent r Eo).
    - assert (Hne : observed r <> []) by now rewrite Eo.
      pose proof (nanmean_observed r Hne) as Hm.
      rewrite (observed_centred r _ Hm), sum_shift.
      assert (INR (List.length (observed r)) <> 0).
      { apply not_0_INR. rewrite Eo. discriminate. }
      field. assumption. }
  intro Hne. pose proof (nanmean_centred r Hne) as H0.
  split; [exact H0|].
  pose proof (user_means_row
                (mkFrame (columns df) (centred_rows (rows df)))
                u (centred r) Hr') as Hg.
  unfold user_means_of in Hg. unfold item. rewrite Hg.
  cbn [bind]. now rewrite H0.
Qed.

Lemma mean_centering_invariant_witness :
  exists df' r',
    means_data_frame_of data_frame = Ok df' /\
    index df' = index data_frame /\
    loc df' "user-2" = Ok (mkSeries (columns data_frame) r') /\
    (forall n,
       nth n [Some 6; Some 7; None; Some 4; Some 3; Some 4] None = None ->
       nth n r' None = None) /\
    (forall i, at_ data_frame "user-2" i = Ok NaN ->
               at_ df' "user-2" i = Ok NaN) /\
    sum (observed r') = 0 /\
    (observed [Some 6; Some 7; None; Some 4; Some 3; Some 4] <> [] ->
     nanmean r' = Some 0 /\ item (mean_axis1 df') "user-2" = Ok (Fin 0)).
Proof.
  apply (mean_centering_invariant data_frame "user-2").
  - exact data_frame_index_NoDup.
  - reflexivity.
Defined.

(** *** Centring in binary64 *)

(** A double is [nan] exactly when its reading by the specification of
    the floating-point operations is. *)
Lemma is_nan_Prim2SF (x : PrimFloat.float) :
  is_nan x = true <-> Prim2SF x = S754_nan.
Proof.
  unfold is_nan. rewrite FloatAxioms.eqb_spec.
  destruct (Prim2SF x) as [s|s| |s m e]; cbn.
  - split; discriminate.
  - destruct s; split; discriminate.
  - split; reflexivity.
  - unfold SFeqb, SFcompare. rewrite Z.compare_refl, Pos.compare_cont_refl.
    destruct s; split; discriminate.
Qed.

Lemma is_nan_sub (x m : PrimFloat.float) :
  is_nan x = true -> is_nan (x - m)%float = true.
Proof.
  rewrite !is_nan_Prim2SF, sub_spec. intros ->. reflexivity.
Qed.

(** In binary64 as in exact arithmetic, what is missing before a row is
    centred is missing after, whatever the mean of the row. *)
Lemma centred_keeps_missing_in_doubles (r : list Double.cell) (n : nat) :
  is_nan (nth n r nan) = true ->
  is_nan (nth n (Double.centred r) nan) = true.
Proof.
  unfold Double.centred, Double.subtract.
  generalize (Double.nanmean r). intro m.
  revert n. induction r as [|x r IH]; intros [|n] H; cbn in *.
  - reflexivity.
  - reflexivity.
  - now apply is_nan_sub.
  - now apply IH.
Qed.

(** C9 as stated does not hold of the doubles the notebooks compute
    with.  The ratings of user-2 have the mean 4.8, which is no double;
    the subtractions round, and the centred ratings have the sum
    8.88e-16 and the mean 1.7763568394002506e-16, not zero. *)
Lemma centred_mean_not_zero_in_doubles :
  Double.ratings "user-2" = [6; 7; nan; 4; 3; 4]%float /\
  Double.nanmean (Double.ratings "user-2") = 4.8%float /\
  Double.centred (Double.ratings "user-2")
  = [1.2000000000000002; 2.2; nan; -0.7999999999999998;
     -1.7999999999999998; -0.7999999999999998]%float /\
  Double.nansum (Double.centred (Double.ratings "user-2"))
  = 8.881784197001252e-16%float /\
  Double.nanmean (Double.centred (Double.ratings "user-2"))
  = 1.7763568394002506e-16%float /\
  PrimFloat.eqb (Double.nanmean (Double.centred (Double.ratings "user-2"))) 0
  = false.
Proof. repeat split; vm_compute; reflexivity. Qed.

(** ** Convexity *)

(** The predictor for a list of peers: with similarities above zero and
    ratings between [lo] and [hi], its value is between [lo] and [hi]. *)
Lemma accumulate_between (S D : DataFrame) (t i : label) (lo hi : R)
    (ps : list label) :
  (forall q, In q ps ->
     exists s r, at_ S t q = Ok (Fin s) /\ at_ D q i = Ok (Fin r) /\
                 0 < s /\ lo <= r <= hi) ->
  forall n0 d0, 0 < d0 -> lo * d0 <= n0 <= hi * d0 ->
  exists n d,
    accumulate (contribution S D t i) (Fin n0) ps = Ok (Fin n) /\
    accumulate (at_ S t) (Fin d0) ps = Ok (Fin d) /\
    0 < d /\ lo * d <= n <= hi * d.
Proof.
  induction ps as [|q ps IH]; intros Hps n0 d0 Hd0 Hn0.
  - exists n0, d0. cbn. auto.
  - destruct (Hps q (or_introl eq_refl)) as (s & r & Hs & Hr & Hpos & Hb).
    destruct (IH (fun q' H' => Hps q' (or_intror H'))
                 (n0 + s * r) (d0 + s)) as (n & d & Hn & Hd & Hdp & Hnd);
      [lra|nra|].
    exists n, d. cbn [accumulate]. unfold contribution at 1.
    rewrite Hs, Hr. cbn [bind fmul fadd]. auto.
Qed.

Lemma predict_between (S D : DataFrame) (t i p : label) (ps : list label)
    (lo hi : R) :
  (forall q, In q (p :: ps) ->
     exists s r, at_ S t q = Ok (Fin s) /\ at_ D q i = Ok (Fin r) /\
                 0 < s /\ lo <= r <= hi) ->
  exists y, predict S D t i p ps = Ok (Fin y) /\ lo <= y <= hi.
Proof.
  intro H.
  destruct (H p (or_introl eq_refl)) as (s & r & Hs & Hr & Hpos & Hb).
  destruct (accumulate_between S D t i lo hi ps
              (fun q' H' => H q' (or_intror H')) (s * r) s)
    as (n & d & Hn & Hd & Hdp & Hnd); [lra|nra|].
  exists (n / d). unfold predict. unfold contribution at 1.
  rewrite Hs, Hr. cbn [bind fmul]. rewrite Hn, Hd. cbn [bind].
  rewrite fdiv_finite by lra. split; [reflexivity|].
  apply quotient_bounds_le; lra.
Qed.

(** The predictor for a list of peers is the weighted average of the
    similarities and ratings looked up, for any number of peers. *)
Lemma accumulate_sums (S D : DataFrame) (t i : label) (ps : list label)
    (ws : list (R * R)) :
  Forall2 (fun q w => at_ S t q = Ok (Fin (fst w)) /\
                      at_ D q i = Ok (Fin (snd w))) ps ws ->
  forall n0 d0,
  exists n d,
    accumulate (contribution S D t i) (Fin n0) ps = Ok (Fin n) /\
    accumulate (at_ S t) (Fin d0) ps = Ok (Fin d) /\
    n = n0 + weighted_sum ws /\ d = d0 + normalizer ws.
Proof.
  induction 1 as [|q w ps ws [Hs Hr] _ IH]; intros n0 d0.
  - exists n0, d0. unfold weighted_sum, normalizer. cbn.
    repeat split; lra.
  - destruct (IH (n0 + fst w * snd w) (d0 + fst w))
      as (n & d & Hn & Hd & En & Ed).
    exists n, d. cbn [accumulate]. unfold contribution at 1.
    rewrite Hs, Hr. cbn [bind fmul fadd].
    repeat split; try assumption.
    + rewrite En. unfold weighted_sum, sum. cbn [map fold_right]. lra.
    + rewrite Ed. unfold normalizer, sum. cbn [map fold_right]. lra.
Qed.

Lemma predict_weighted_average (S D : DataFrame) (t i p : label)
    (ps : list label) (ws : list (R * R)) :
  Forall2 (fun q w => at_ S t q = Ok (Fin (fst w)) /\
                      at_ D q i = Ok (Fin (snd w))) (p :: ps) ws ->
  normalizer ws <> 0 ->
  predict S D t i p ps = Ok (Fin (weighted_average false 0 ws)).
Proof.
  intros H Hnz. inversion H as [|q w ps' ws' [Hs Hr] Hrest]; subst.
  destruct (accumulate_sums S D t i ps ws' Hrest (fst w * snd w) (fst w))
    as (n & d & Hn & Hd & En & Ed).
  unfold predict. unfold contribution at 1.
  rewrite Hs, Hr. cbn [bind fmul]. rewrite Hn, Hd. cbn [bind].
  assert (Ew : weighted_sum (w :: ws') = n)
    by (rewrite En; unfold weighted_sum, sum; cbn [map fold_right]; lra).
  assert (Ez : normalizer (w :: ws') = d)
    by (rewrite Ed; unfold normalizer, sum; cbn [map fold_right]; lra).
  rewrite fdiv_finite by (rewrite <- Ez; exact Hnz).
  unfold weighted_average. now rewrite Ew, Ez.
Qed.

(** C10, in exact arithmetic.  With two peers of similarities above
    zero, the uncentred expression, where no operation rounds, returns a
    number between the smaller and the larger of their ratings of the
    item; where the two ratings are one same [r], it returns [r],
    whatever the similarities.  In binary64 both hold up to rounding
    only, as two peers who rate 3 show below. *)
Theorem prediction_between_peer_ratings
    (S D : DataFrame) (t p1 p2 i : label) (s1 s2 r1 r2 : R) :
  at_ S t p1 = Ok (Fin s1) -> at_ S t p2 = Ok (Fin s2) ->
  at_ D p1 i = Ok (Fin r1) -> at_ D p2 i = Ok (Fin r2) ->
  0 < s1 -> 0 < s2 ->
  exists y,
    prediction S D t p1 p2 i = Ok (Fin y) /\
    Rmin r1 r2 <= y <= Rmax r1 r2 /\
    (r1 = r2 -> y = r1).
Proof.
  intros Hs1 Hs2 Hr1 Hr2 P1 P2.
  exists ((s1 * r1 + s2 * r2) / (s1 + s2)).
  split; [apply prediction_finite; auto; lra|].
  pose proof (Rmin_l r1 r2). pose proof (Rmin_r r1 r2).
  pose proof (Rmax_l r1 r2). pose proof (Rmax_r r1 r2).
  split.
  - apply quotient_bounds_le; nra.
  - intros ->. field. lra.
Qed.

Lemma prediction_between_peer_ratings_witness :
  exists y,
    prediction Pearson.correlation data_frame
               "user-3" "user-1" "user-2" "item-6" = Ok (Fin y) /\
    Rmin 4 4 <= y <= Rmax 4 4 /\
    (4 = 4 -> y = 4).
Proof.
  apply (prediction_between_peer_ratings
           Pearson.correlation data_frame
           "user-3" "user-1" "user-2" "item-6"
           (4 / sqrt 20) ((14 / 3) / sqrt (208 / 9)) 4 4
           correlation_user_3_user_1 correlation_user_3_user_2
           eq_refl eq_refl); lookups_nonzero.
Defined.

(** C10 as stated does not hold of the doubles the notebooks compute
    with.  For two peers who both rate the item 3, at the similarities
    0.557773351022717 and 0.3651483716701108 (to sixteen places the raw
    cosine similarities of user-3 to user-2 and to user-5, who both rate
    item-5 with 3), the expression returns 3.0000000000000004: not 3,
    and above the larger of the two ratings. *)
Lemma prediction_above_equal_ratings_in_doubles :
  PrimFloat.ltb 0 0.557773351022717 = true /\
  PrimFloat.ltb 0 0.3651483716701108 = true /\
  Double.prediction 0.557773351022717 3 0.3651483716701108 3
  = 3.0000000000000004%float /\
  PrimFloat.ltb 3 (Double.prediction 0.557773351022717 3
                                     0.3651483716701108 3) = true /\
  PrimFloat.eqb (Double.prediction 0.557773351022717 3
                                   0.3651483716701108 3) 3 = false.
Proof. repeat split; vm_compute; reflexivity. Qed.

(** ** The reference scenario: neighbours *)

Ltac each_user H :=
  cbn in H; destruct H as [<-|[<-|[<-|[<-|[<-|[]]]]]].

Ltac read_lookup H :=
  first [ rewrite raw_user_3_user_1 in H
        | rewrite raw_user_3_user_2 in H
        | rewrite raw_user_3_user_4 in H
        | rewrite raw_user_3_user_5 in H
        | rewrite correlation_user_3_user_1 in H
        | rewrite correlation_user_3_user_2 in H
        | rewrite correlation_user_3_user_4 in H
        | rewrite correlation_user_3_user_5 in H ];
  inversion H; subst; clear H.

Ltac is_candidate :=
  split; [cbn; tauto|split; [discriminate|eexists; reflexivity]].

(** The shape of a proof that two users are the top two neighbours of
    user-3: the peers are candidates with a similarity, and each of the
    other candidates has a similarity no higher. *)
Ltac top_two lookup1 lookup2 :=
  split; [reflexivity|];
  split; [repeat constructor; cbn; intuition discriminate|];
  split;
  [ intros p [<-|[<-|[]]];
    (split; [is_candidate|eexists; first [apply lookup1|apply lookup2]])
  | intros p u sp su Hp (Hin & Hne & _) Hout Hsp Hsu;
    pose proof raw_user_3_bounds; pose proof correlation_user_3_bounds;
    destruct Hp as [<-|[<-|[]]]; each_user Hin;
    try (exfalso; apply Hne; reflexivity);
    try (exfalso; apply Hout; cbn; tauto);
    read_lookup Hsp; read_lookup Hsu; lra ].

(** C2, as the similarity matrix has it.  Under the raw cosine
    similarity of the zero-filled ratings, the two users most similar to
    user-3, among those other than user-3 who have rated the item, are
    user-1, at 0.7766, and user-4, at 0.6138, for item-1 as for item-6;
    user-2, at 0.5578, comes third and user-5 last. *)
Theorem top_2_raw_cosine_neighbors :
  Cosine.cosine_similarity_raw = Ok raw_similarity /\
  top_neighbors raw_similarity data_frame "user-3" "item-1" 2
                ["user-1"; "user-4"] /\
  top_neighbors raw_similarity data_frame "user-3" "item-6" 2
                ["user-1"; "user-4"] /\
  approximately (at_ raw_similarity "user-3" "user-1") 0.7766 0.00005 /\
  approximately (at_ raw_similarity "user-3" "user-4") 0.6138 0.00005 /\
  approximately (at_ raw_similarity "user-3" "user-2") 0.5578 0.00005 /\
  exists s1 s2 s4 s5,
    at_ raw_similarity "user-3" "user-1" = Ok (Fin s1) /\
    at_ raw_similarity "user-3" "user-2" = Ok (Fin s2) /\
    at_ raw_similarity "user-3" "user-4" = Ok (Fin s4) /\
    at_ raw_similarity "user-3" "user-5" = Ok (Fin s5) /\
    s5 < s2 < s4 /\ s4 < s1.
Proof.
  pose proof raw_user_3_bounds as B.
  split; [reflexivity|].
  split; [top_two raw_user_3_user_1 raw_user_3_user_4|].
  split; [top_two raw_user_3_user_1 raw_user_3_user_4|].
  split.
  { eapply approximately_between; [exact raw_user_3_user_1|lra]. }
  split.
  { eapply approximately_between; [exact raw_user_3_user_4|lra]. }
  split.
  { eapply approximately_between; [exact raw_user_3_user_2|lra]. }
  exists (48 / sqrt 3820), (28 / sqrt 2520), (18 / sqrt 860), (8 / sqrt 480).
  split; [exact raw_user_3_user_1|].
  split; [exact raw_user_3_user_2|].
  split; [exact raw_user_3_user_4|].
  split; [exact raw_user_3_user_5|].
  lra.
Qed.

(** C2 as stated does not hold: user-1 and user-2 are not the top two
    neighbours of user-3 under the raw cosine similarity, user-4, who has
    rated item-1, being more similar to user-3 than user-2 is. *)
Lemma top_2_raw_cosine_not_user_1_user_2 :
  Cosine.cosine_similarity_raw = Ok raw_similarity /\
  ~ top_neighbors raw_similarity data_frame "user-3" "item-1" 2
                  ["user-1"; "user-2"].
Proof.
  split; [reflexivity|].
  intros (_ & _ & _ & H).
  assert (L : 18 / sqrt 860 <= 28 / sqrt 2520).
  { apply (H "user-2" "user-4").
    - cbn. tauto.
    - is_candidate.
    - cbn. intuition discriminate.
    - exact raw_user_3_user_2.
    - exact raw_user_3_user_4. }
  pose proof raw_user_3_bounds. lra.
Qed.

(** ** The reference scenario: predictions *)

Lemma raw_prediction_value (i : label) (r1 r2 : R) :
  at_ data_frame "user-1" i = Ok (Fin r1) ->
  at_ data_frame "user-2" i = Ok (Fin r2) ->
  prediction raw_similarity data_frame "user-3" "user-1" "user-2" i
  = Ok (Fin ((48 / sqrt 3820 * r1 + 28 / sqrt 2520 * r2)
             / (48 / sqrt 3820 + 28 / sqrt 2520))).
Proof.
  intros H1 H2. apply prediction_finite; auto.
  - exact raw_user_3_user_1.
  - exact raw_user_3_user_2.
  - lookups_nonzero.
Qed.

(** With the two users most similar to user-3, the same expression gives
    4.351 for item-1. *)
Lemma raw_prediction_with_user_4 :
  approximately
    (prediction raw_similarity data_frame "user-3" "user-1" "user-4" "item-1")
    4.351 0.0005.
Proof.
  pose proof raw_user_3_bounds as B.
  eapply approximately_between.
  - apply (prediction_finite raw_similarity data_frame
             "user-3" "user-1" "user-4" "item-1"
             (48 / sqrt 3820) (18 / sqrt 860) 7 1).
    + exact raw_user_3_user_1.
    + exact raw_user_3_user_4.
    + reflexivity.
    + reflexivity.
    + lra.
  - apply quotient_bounds; lra.
Qed.

(** C3.  In the cosine notebook the prediction of user-3 for item-1 is
    6.582 to three places, and the one for item-6 is 4. *)
Theorem raw_cosine_predictions :
  approximately Cosine.prediction_user_3_item_1 6.582 0.0005 /\
  Cosine.prediction_user_3_item_6 = Ok (Fin 4).
Proof.
  unfold Cosine.prediction_user_3_item_1, Cosine.prediction_user_3_item_6.
  rewrite cosine_similarity_raw_frame. cbn [bind].
  pose proof raw_user_3_bounds as B.
  split.
  - eapply approximately_between.
    + apply (raw_prediction_value "item-1" 7 6); reflexivity.
    + apply quotient_bounds; lra.
  - rewrite (raw_prediction_value "item-6" 4 4) by reflexivity.
    do 2 f_equal.
    set (s1 := 48 / sqrt 3820) in *. set (s2 := 28 / sqrt 2520) in *.
    field. lra.
Qed.

Lemma correlation_prediction_value (D : DataFrame) (i : label) (r1 r2 : R) :
  at_ D "user-1" i = Ok (Fin r1) ->
  at_ D "user-2" i = Ok (Fin r2) ->
  prediction Pearson.correlation D "user-3" "user-1" "user-2" i
  = Ok (Fin ((4 / sqrt 20 * r1 + (14 / 3) / sqrt (208 / 9) * r2)
             / (4 / sqrt 20 + (14 / 3) / sqrt (208 / 9)))).
Proof.
  intros H1 H2. apply prediction_finite; auto.
  - exact correlation_user_3_user_1.
  - exact correlation_user_3_user_2.
  - lookups_nonzero.
Qed.

(** C4.  In the Pearson notebook the two users most correlated with
    user-3, among those who have rated the item (item-1, and item-6 as
    well), are user-1, at 0.894, and user-2, at 0.971; the prediction of
    user-3 for item-1 is 6.4795 to four places, and the mean-centred one
    3.3439. *)
Theorem pearson_neighbors_and_predictions :
  top_neighbors Pearson.correlation data_frame "user-3" "item-1" 2
                ["user-1"; "user-2"] /\
  top_neighbors Pearson.correlation data_frame "user-3" "item-6" 2
                ["user-1"; "user-2"] /\
  approximately (at_ Pearson.correlation "user-3" "user-1") 0.894 0.0005 /\
  approximately (at_ Pearson.correlation "user-3" "user-2") 0.971 0.0005 /\
  approximately Pearson.prediction_user_3_item_1 6.4795 0.00005 /\
  approximately Pearson.mean_prediction_user_3_item_1 3.3439 0.00005.
Proof.
  pose proof correlation_user_3_bounds as B.
  split; [top_two correlation_user_3_user_1 correlation_user_3_user_2|].
  split; [top_two correlation_user_3_user_1 correlation_user_3_user_2|].
  split.
  { eapply approximately_between; [exact correlation_user_3_user_1|lra]. }
  split.
  { eapply approximately_between; [exact correlation_user_3_user_2|lra]. }
  split.
  { eapply approximately_between.
    - apply (correlation_prediction_value data_frame "item-1" 7 6);
        reflexivity.
    - apply quotient_bounds; lra. }
  unfold Pearson.mean_prediction_user_3_item_1, Pearson.means_data_frame.
  rewrite (means_data_frame_rows data_frame data_frame_index_NoDup).
  cbn [bind].
  eapply approximately_between.
  - apply (mean_prediction_finite Pearson.user_means Pearson.correlation _
             "user-3" "user-1" "user-2" "item-1"
             2 (4 / sqrt 20) ((14 / 3) / sqrt (208 / 9))
             (7 - 11 / 2) (6 - 24 / 5)).
    + exact user_means_user_3.
    + exact correlation_user_3_user_1.
    + exact correlation_user_3_user_2.
    + apply (at_centred data_frame);
        [exact data_frame_index_NoDup
        |exact (means_data_frame_rows data_frame data_frame_index_NoDup)
        |reflexivity|exact user_means_user_1].
    + apply (at_centred data_frame);
        [exact data_frame_index_NoDup
        |exact (means_data_frame_rows data_frame data_frame_index_NoDup)
        |reflexivity|exact user_means_user_2].
    + lra.
  - assert (Q : 1.34385 <
                (4 / sqrt 20 * (7 - 11 / 2)
                 + (14 / 3) / sqrt (208 / 9) * (6 - 24 / 5))
                / (4 / sqrt 20 + (14 / 3) / sqrt (208 / 9))
                < 1.34395) by (apply quotient_bounds; lra).
    lra.
Qed.

(** * Further properties *)

(** ** When a look-up returns *)

Lemma position_found (k : label) (ks : list label) :
  In k ks <-> exists n, position k ks = Some n.
Proof.
  induction ks as [|k' ks IH]; cbn.
  - split; [tauto|intros [n H]; discriminate].
  - destruct (String.eqb_spec k k') as [->|N].
    + split; [intros _; now exists O|now left].
    + split.
      * intros [E|H]; [now contradiction N|].
        apply IH in H. destruct H as [n ->]. now exists (S n).
      * intros [n H]. right. apply IH.
        destruct (position k ks) as [m|]; [now exists m|discriminate].
Qed.

Lemma assoc_found {A : Type} (k : label) (l : list (label * A)) :
  In k (map fst l) <-> exists a, assoc k l = Some a.
Proof.
  induction l as [|[k' a'] l IH]; cbn.
  - split; [tauto|intros [a H]; discriminate].
  - destruct (String.eqb_spec k k') as [->|N].
    + split; [intros _; now exists a'|now left].
    + rewrite <- IH. split; [intros [E|H]; [now contradiction N|exact H]|now right].
Qed.

Lemma at_defined (df : DataFrame) (u i : label) :
  (exists v, at_ df u i = Ok v) <-> In u (index df) /\ In i (columns df).
Proof.
  unfold at_, loc, getitem, index. rewrite assoc_found, position_found.
  split.
  - intros [v H].
    destruct (assoc u (rows df)) as [r|]; cbn in H; [|discriminate].
    destruct (position i (columns df)) as [n|]; cbn in H; [|discriminate].
    split; eauto.
  - intros [[r ->] [n Hn]]. cbn. rewrite Hn. cbn. eauto.
Qed.

Lemma item_defined (s : Series) (k : label) :
  (exists v, item s k = Ok v) <-> In k (s_index s).
Proof.
  unfold item, getitem. rewrite position_found. split.
  - intros [v H]. destruct (position k (s_index s)) as [n|]; [eauto|discriminate].
  - intros [n ->]. cbn. eauto.
Qed.

(** X1.  The two expressions return a value exactly when every label they look
    up is known. *)
Theorem prediction_returns_iff_labels_known
    (M : Series) (S D : DataFrame) (t p1 p2 i : label) :
  ((exists v, prediction S D t p1 p2 i = Ok v) <->
   In t (index S) /\ In p1 (columns S) /\ In p2 (columns S) /\
   In p1 (index D) /\ In p2 (index D) /\ In i (columns D)) /\
  ((exists v, mean_prediction M S D t p1 p2 i = Ok v) <->
   In t (s_index M) /\
   In t (index S) /\ In p1 (columns S) /\ In p2 (columns S) /\
   In p1 (index D) /\ In p2 (index D) /\ In i (columns D)).
Proof.
  pose proof (at_defined S t p1) as A1. pose proof (at_defined S t p2) as A2.
  pose proof (at_defined D p1 i) as B1. pose proof (at_defined D p2 i) as B2.
  pose proof (item_defined M t) as C.
  unfold prediction, mean_prediction.
  destruct (item M t) as [m|]; destruct (at_ S t p1) as [s1|];
    destruct (at_ D p1 i) as [r1|]; destruct (at_ S t p2) as [s2|];
    destruct (at_ D p2 i) as [r2|]; cbn [bind];
    (split; (split;
     [ intros [v H]; try discriminate H;
       repeat match goal with
              | H : (exists v, Ok ?a = Ok v) <-> _ |- _ =>
                  let K := fresh in
                  assert (K := proj1 H (ex_intro _ a eq_refl)); clear H
              end; tauto
     | intro H; try (eexists; reflexivity); exfalso;
       repeat match goal with
              | H : (exists v, Raise ?e = Ok v) <-> _ |- _ =>
                  let K := fresh in
                  assert (K : ~ exists v : float, @Raise float e = Ok v)
                    by (intros [? ?]; discriminate);
                  rewrite H in K; clear H
              end; tauto ])).
Qed.

Lemma prediction_returns_iff_labels_known_witness :
  exists v, prediction Pearson.correlation data_frame
                       "user-3" "user-1" "user-2" "item-1" = Ok v.
Proof.
  apply (proj2 (proj1 (prediction_returns_iff_labels_known
                         (user_means_of data_frame)
                         Pearson.correlation data_frame
                         "user-3" "user-1" "user-2" "item-1"))).
  cbn. tauto.
Defined.

(** ** Missing values in the arithmetic *)

Lemma fmul_NaN_l (b : float) : fmul NaN b = NaN.
Proof. now destruct b. Qed.
Lemma fmul_NaN_r (a : float) : fmul a NaN = NaN.
Proof. now destruct a. Qed.
Lemma fadd_NaN_l (b : float) : fadd NaN b = NaN.
Proof. now destruct b. Qed.
Lemma fadd_NaN_r (a : float) : fadd a NaN = NaN.
Proof. now destruct a. Qed.
Lemma fdiv_NaN_l (b : float) : fdiv NaN b = NaN.
Proof. now destruct b. Qed.
Lemma fdiv_NaN_r (a : float) : fdiv a NaN = NaN.
Proof. now destruct a. Qed.

Lemma fadd_comm (a b : float) : fadd a b = fadd b a.
Proof.
  destruct a as [x|s|], b as [y|s'|]; cbn; try reflexivity.
  - f_equal. lra.
  - destruct s, s'; reflexivity.
Qed.

Ltac nan_steps :=
  repeat first [ rewrite fmul_NaN_l | rewrite fmul_NaN_r
               | rewrite fadd_NaN_l | rewrite fadd_NaN_r
               | rewrite fdiv_NaN_l | rewrite fdiv_NaN_r ].

(** X2.  A missing similarity or rating among the values looked up makes the
    result missing: the peer is not left out of the sums. *)
Theorem missing_value_makes_prediction_missing
    (M : Series) (S D : DataFrame) (t p1 p2 i : label)
    (s1 s2 r1 r2 : float) :
  at_ S t p1 = Ok s1 -> at_ S t p2 = Ok s2 ->
  at_ D p1 i = Ok r1 -> at_ D p2 i = Ok r2 ->
  (s1 = NaN \/ s2 = NaN \/ r1 = NaN \/ r2 = NaN ->
   prediction S D t p1 p2 i = Ok NaN) /\
  (forall m, item M t = Ok m ->
     m = NaN \/ s1 = NaN \/ s2 = NaN \/ r1 = NaN \/ r2 = NaN ->
     mean_prediction M S D t p1 p2 i = Ok NaN).
Proof.
  intros Hs1 Hs2 Hr1 Hr2. unfold prediction, mean_prediction.
  rewrite Hs1, Hs2, Hr1, Hr2. cbn [bind]. split.
  - intros [ -> | [ -> | [ -> | -> ] ] ]; now nan_steps.
  - intros m -> [ -> | [ -> | [ -> | [ -> | -> ] ] ] ]; cbn [bind]; now nan_steps.
Qed.

Lemma missing_value_makes_prediction_missing_witness :
  prediction Pearson.correlation data_frame
             "user-3" "user-1" "user-2" "item-3" = Ok NaN.
Proof.
  refine (proj1 (missing_value_makes_prediction_missing
                   (user_means_of data_frame)
                   Pearson.correlation data_frame
                   "user-3" "user-1" "user-2" "item-3"
                   _ _ (Fin 7) NaN
                   correlation_user_3_user_1 correlation_user_3_user_2
                   eq_refl eq_refl) _).
  right. right. right. reflexivity.
Defined.

(** X3.  Where they return, the expressions do not depend on the order of the
    two peers. *)
Theorem prediction_peers_swap
    (M : Series) (S D : DataFrame) (t p1 p2 i : label) :
  ((exists v, prediction S D t p1 p2 i = Ok v) ->
   prediction S D t p2 p1 i = prediction S D t p1 p2 i) /\
  ((exists v, mean_prediction M S D t p1 p2 i = Ok v) ->
   mean_prediction M S D t p2 p1 i = mean_prediction M S D t p1 p2 i).
Proof.
  unfold prediction, mean_prediction.
  destruct (item M t) as [m|]; destruct (at_ S t p1) as [s1|];
    destruct (at_ D p1 i) as [r1|]; destruct (at_ S t p2) as [s2|];
    destruct (at_ D p2 i) as [r2|]; cbn [bind];
    (split; intros [v H]; try discriminate H);
    now rewrite (fadd_comm (fmul s2 r2)), (fadd_comm s2).
Qed.

Lemma prediction_peers_swap_witness :
  prediction Pearson.correlation data_frame
             "user-3" "user-2" "user-1" "item-1"
  = prediction Pearson.correlation data_frame
               "user-3" "user-1" "user-2" "item-1".
Proof.
  apply (proj1 (prediction_peers_swap (user_means_of data_frame)
                  Pearson.correlation data_frame
                  "user-3" "user-1" "user-2" "item-1")).
  eexists.
  apply (prediction_finite Pearson.correlation data_frame
           "user-3" "user-1" "user-2" "item-1" _ _ 7 6
           correlation_user_3_user_1 correlation_user_3_user_2
           eq_refl eq_refl).
  lookups_nonzero.
Defined.

(** X5.  With similarities of opposite signs the result is no average any
    more: it lies beyond the rating of the peer with the positive
    similarity, on the side away from the other peer's rating. *)
Theorem prediction_leaves_range_for_opposed_similarities
    (S D : DataFrame) (t p1 p2 i : label) (s1 s2 r1 r2 : R) :
  at_ S t p1 = Ok (Fin s1) -> at_ S t p2 = Ok (Fin s2) ->
  at_ D p1 i = Ok (Fin r1) -> at_ D p2 i = Ok (Fin r2) ->
  s2 < 0 -> 0 < s1 + s2 ->
  exists y,
    prediction S D t p1 p2 i = Ok (Fin y) /\
    (r2 < r1 -> Rmax r1 r2 < y) /\
    (r1 < r2 -> y < Rmin r1 r2).
Proof.
  intros Hs1 Hs2 Hr1 Hr2 Hneg Hpos.
  exists ((s1 * r1 + s2 * r2) / (s1 + s2)).
  split; [apply prediction_finite; auto; lra|].
  assert (E : (s1 * r1 + s2 * r2) / (s1 + s2) - r1
              = (- s2) * (r1 - r2) * / (s1 + s2)) by (field; lra).
  assert (Hi : 0 < / (s1 + s2)) by now apply Rinv_0_lt_compat.
  split; intro L.
  - rewrite Rmax_left by lra.
    assert (0 < (- s2) * (r1 - r2) * / (s1 + s2)).
    { apply Rmult_lt_0_compat; [apply Rmult_lt_0_compat; lra|exact Hi]. }
    lra.
  - rewrite Rmin_left by lra.
    assert (0 < (- s2) * (r2 - r1) * / (s1 + s2)).
    { apply Rmult_lt_0_compat; [apply Rmult_lt_0_compat; lra|exact Hi]. }
    assert ((- s2) * (r1 - r2) * / (s1 + s2)
            = - ((- s2) * (r2 - r1) * / (s1 + s2))) by ring.
    lra.
Qed.

Lemma correlation_user_3_user_5_bound : -0.8661 < -2 / sqrt (16 / 3).
Proof.
  assert (B : 0.866 < 2 / sqrt (16 / 3) < 0.8661)
    by (apply quot_sqrt_bounds; lra).
  assert (P : 0 < sqrt (16 / 3)) by (apply sqrt_lt_R0; lra).
  replace (-2 / sqrt (16 / 3)) with (- (2 / sqrt (16 / 3))) by (field; lra).
  lra.
Qed.

Lemma prediction_leaves_range_for_opposed_similarities_witness :
  exists y,
    prediction Pearson.correlation data_frame
               "user-3" "user-2" "user-5" "item-1" = Ok (Fin y) /\
    (1 < 6 -> Rmax 6 1 < y) /\
    (6 < 1 -> y < Rmin 6 1).
Proof.
  apply (prediction_leaves_range_for_opposed_similarities
           Pearson.correlation data_frame
           "user-3" "user-2" "user-5" "item-1"
           ((14 / 3) / sqrt (208 / 9)) (-2 / sqrt (16 / 3)) 6 1
           correlation_user_3_user_2 correlation_user_3_user_5
           eq_refl eq_refl).
  - pose proof correlation_user_3_bounds. lra.
  - pose proof correlation_user_3_bounds.
    pose proof correlation_user_3_user_5_bound. lra.
Defined.

(** ** Arrays with and without missing entries *)

Lemma dense_row_fillna (v : R) (r : list cell) :
  dense_row (map (fun c => match c with
                           | Some x => Some x
                           | None => Some v
                           end) r)
  = Ok (map (filled v) r).
Proof.
  induction r as [|[x|] r IH]; cbn; [reflexivity| |]; now rewrite IH.
Qed.

Lemma values_fillna (v : R) (df : DataFrame) :
  values (fillna v df)
  = map (map (fun c => match c with
                       | Some x => Some x
                       | None => Some v
                       end)) (values df).
Proof.
  unfold values, fillna. cbn [rows]. rewrite !map_map. reflexivity.
Qed.

Lemma dense_rows_fillna (v : R) (df : DataFrame) :
  dense_rows (values (fillna v df))
  = Ok (map (map (filled v)) (values df)).
Proof.
  rewrite values_fillna.
  induction (values df) as [|r m IH]; cbn; [reflexivity|].
  now rewrite dense_row_fillna, IH.
Qed.

Lemma check_array_dense (m : list (list cell)) (X : list (list R)) :
  check_array m = Ok X -> dense_rows m = Ok X.
Proof.
  destruct m as [|[|c r] m]; cbn [check_array];
    [discriminate|discriminate|auto].
Qed.

Lemma check_array_fillna (v : R) (df : DataFrame) (X : list (list R)) :
  check_array (values (fillna v df)) = Ok X ->
  X = map (map (filled v)) (values df).
Proof.
  intro H. apply check_array_dense in H.
  rewrite dense_rows_fillna in H. now inversion H.
Qed.

(** A frame with a user and an item has an array with a row and a
    column. *)
Lemma check_array_populated (df : DataFrame) :
  rows df <> [] -> columns df <> [] -> well_formed df ->
  check_array (values df) = dense_rows (values df).
Proof.
  unfold well_formed, values.
  destruct (rows df) as [|[u r] l]; intros Hr Hc Hw; [contradiction|].
  inversion Hw as [|? ? Hl _]; subst. cbn [fst snd] in Hl.
  destruct r as [|c r]; cbn [map snd check_array]; [|reflexivity].
  destruct (columns df); [contradiction|discriminate].
Qed.

Lemma well_formed_fillna (v : R) (df : DataFrame) :
  well_formed df -> well_formed (fillna v df).
Proof.
  unfold well_formed, fillna. cbn [rows columns]. intro H.
  apply Forall_map. revert H. apply Forall_impl.
  intros [u r] E. cbn [fst snd] in *. now rewrite length_map.
Qed.

Lemma dense_row_raises (r : list cell) :
  (exists xs, dense_row r = Ok xs) \/ dense_row r = Raise ValueError.
Proof.
  induction r as [|[x|] r IH]; cbn; [left; eauto| |now right].
  destruct IH as [[xs ->]| ->]; cbn; [left; eauto|now right].
Qed.

Lemma dense_row_missing (r : list cell) :
  In None r -> dense_row r = Raise ValueError.
Proof.
  induction r as [|[x|] r IH]; cbn; [tauto| |reflexivity].
  intros [H|H]; [discriminate|]. now rewrite IH.
Qed.

Lemma dense_rows_missing (m : list (list cell)) :
  (exists r, In r m /\ In None r) -> dense_rows m = Raise ValueError.
Proof.
  induction m as [|r0 m IH]; intros (r & Hr & Hn); [destruct Hr|].
  cbn. destruct Hr as [->|Hr].
  - now rewrite dense_row_missing.
  - destruct (dense_row_raises r0) as [[xs ->]| ->]; cbn; [|reflexivity].
    rewrite IH; [reflexivity|eauto].
Qed.

Lemma check_array_missing (m : list (list cell)) :
  (exists r, In r m /\ In None r) -> check_array m = Raise ValueError.
Proof.
  intro H. destruct m as [|[|c r] m]; cbn [check_array];
    [reflexivity|reflexivity|now apply dense_rows_missing].
Qed.

Lemma index_combine (idx : list label) (m : list (list cell)) :
  List.length m = List.length idx -> map fst (combine idx m) = idx.
Proof.
  revert m. induction idx as [|k idx IH]; intros [|r m] H; cbn in *;
    try reflexivity; try discriminate.
  f_equal. apply IH. lia.
Qed.

Lemma well_formed_data_frame : well_formed data_frame.
Proof. unfold well_formed. cbn. repeat constructor. Qed.

(** X8.  On a frame with a user and an item the similarity cell does not
    fail, thanks to its [fillna(0)]; without it, scikit-learn refuses a
    frame with a missing rating; and with it or without, a frame with no
    user or with no item. *)
Theorem cosine_similarity_needs_fillna (df : DataFrame) :
  (rows df <> [] -> columns df <> [] -> well_formed df ->
   exists S, cosine_similarity_of df = Ok S /\
             index S = index df /\ columns S = index df) /\
  ((exists u r, In (u, r) (rows df) /\ In None r) ->
   cosine_similarity df = Raise ValueError) /\
  (rows df = [] \/ (columns df = [] /\ well_formed df) ->
   cosine_similarity_of df = Raise ValueError /\
   cosine_similarity df = Raise ValueError).
Proof.
  split; [|split].
  - intros Hr Hc Hw.
    unfold cosine_similarity_of, cosine_similarity.
    rewrite check_array_populated, dense_rows_fillna.
    + cbn [bind].
      eexists. split; [reflexivity|]. split; [|reflexivity].
      unfold index at 1, DataFrame_of_array. cbn [rows].
      apply index_combine. unfold gram, index, values.
      now rewrite !length_map.
    + unfold fillna. cbn [rows]. destruct (rows df); [contradiction|].
      discriminate.
    + exact Hc.
    + now apply well_formed_fillna.
  - intros (u & r & Hin & Hn). unfold cosine_similarity.
    rewrite check_array_missing; [reflexivity|].
    exists r. split; [|exact Hn]. unfold values.
    change r with (snd (u, r)). now apply in_map.
  - unfold cosine_similarity_of, cosine_similarity, fillna, values,
      well_formed.
    cbn [rows columns].
    intros [E|[E Hw]].
    + rewrite E. split; reflexivity.
    + destruct (rows df) as [|[u r] l]; [split; reflexivity|].
      inversion Hw as [|? ? Hl _]; subst. cbn [fst snd] in Hl.
      rewrite E in Hl. destruct r; [|discriminate].
      split; reflexivity.
Qed.

Lemma cosine_similarity_needs_fillna_witness :
  (exists S, cosine_similarity_of data_frame = Ok S /\
             index S = index data_frame /\ columns S = index data_frame) /\
  cosine_similarity data_frame = Raise ValueError /\
  cosine_similarity_of (mkFrame ["item-1"] []) = Raise ValueError /\
  cosine_similarity (mkFrame ["item-1"] []) = Raise ValueError.
Proof.
  split; [|split].
  - apply (proj1 (cosine_similarity_needs_fillna data_frame)).
    + discriminate.
    + discriminate.
    + exact well_formed_data_frame.
  - apply (proj1 (proj2 (cosine_similarity_needs_fillna data_frame))).
    exists "user-2", [Some 6; Some 7; None; Some 4; Some 3; Some 4].
    split; cbn; tauto.
  - apply (proj2 (proj2 (cosine_similarity_needs_fillna
                           (mkFrame ["item-1"] [])))).
    left. reflexivity.
Defined.

(** ** Entries of a labelled array *)

Lemma position_lt (k : label) (ks : list label) (n : nat) :
  position k ks = Some n -> (n < List.length ks)%nat.
Proof.
  revert n. induction ks as [|k' ks IH]; intros n; cbn; [discriminate|].
  destruct (String.eqb k k').
  - intro H. inversion H. lia.
  - destruct (position k ks) as [m|]; cbn; [|discriminate].
    intro H. inversion H. specialize (IH m eq_refl). lia.
Qed.

Lemma assoc_combine {A : Type} (k : label) (ks : list label) (vs : list A)
    (n : nat) (d : A) :
  position k ks = Some n -> (n < List.length vs)%nat ->
  assoc k (combine ks vs) = Some (nth n vs d).
Proof.
  revert vs n. induction ks as [|k' ks IH]; intros vs n; cbn; [discriminate|].
  destruct vs as [|v vs]; cbn; [lia|].
  destruct (String.eqb k k').
  - intros H _. now inversion H.
  - destruct (position k ks) as [m|]; cbn; [|discriminate].
    intros H L. inversion H. apply IH; [reflexivity|lia].
Qed.

Lemma assoc_position {A : Type} (k : label) (l : list (label * A)) (a d : A) :
  assoc k l = Some a ->
  exists n, position k (map fst l) = Some n /\ nth n (map snd l) d = a.
Proof.
  induction l as [|[k' a'] l IH]; cbn; [discriminate|].
  destruct (String.eqb k k').
  - intro H. inversion H. now exists O.
  - intro H. destruct (IH H) as (n & -> & Hn). now exists (S n).
Qed.

Lemma at_of_array (m : list (list R)) (idx cols : list label)
    (a b : label) (i j : nat) :
  position a idx = Some i -> position b cols = Some j ->
  (i < List.length m)%nat -> (j < List.length (nth i m []))%nat ->
  at_ (DataFrame_of_array m idx cols) a b = Ok (Fin (nth j (nth i m []) 0)).
Proof.
  intros Ha Hb Li Lj. unfold at_, loc, DataFrame_of_array. cbn [rows columns].
  rewrite (assoc_combine (A := list cell) a idx _ i (map Some []) Ha)
    by now rewrite length_map.
  cbn [bind]. unfold getitem. cbn [s_index s_values]. rewrite Hb. cbn [bind].
  rewrite (map_nth (map Some) m []).
  rewrite (nth_indep _ None (Some 0)) by now rewrite length_map.
  now rewrite (map_nth Some (nth i m []) 0).
Qed.

Lemma dot_nil_r (x : list R) : dot x [] = 0.
Proof. unfold dot. now rewrite combine_nil. Qed.

Lemma gram_entry (Xn : list (list R)) (i j : nat) :
  (i < List.length Xn)%nat -> (j < List.length Xn)%nat ->
  (j < List.length (nth i (gram Xn) []))%nat /\
  nth j (nth i (gram Xn) []) 0 = dot (nth i Xn []) (nth j Xn []).
Proof.
  intros Li Lj. unfold gram.
  rewrite (nth_indep _ [] (map (fun y => dot [] y) Xn))
    by now rewrite length_map.
  rewrite (map_nth (fun x => map (fun y => dot x y) Xn) Xn []).
  split; [now rewrite length_map|].
  rewrite (nth_indep _ 0 (dot (nth i Xn []) [])) by now rewrite length_map.
  now rewrite (map_nth (fun y => dot (nth i Xn []) y) Xn []).
Qed.

(** The rows scikit-learn sees of a frame after [fillna(0)]. *)
Lemma cosine_similarity_of_entry (df S : DataFrame) (a b : label)
    (i j : nat) :
  cosine_similarity_of df = Ok S ->
  position a (index df) = Some i -> position b (index df) = Some j ->
  at_ S a b
  = Ok (Fin (dot (normalize (map (filled 0) (nth i (values df) [])))
                 (normalize (map (filled 0) (nth j (values df) []))))).
Proof.
  intros HS Ha Hb. unfold cosine_similarity_of, cosine_similarity in HS.
  destruct (check_array (values (fillna 0 df))) as [X0|e] eqn:EX;
    cbn [bind] in HS; [|discriminate].
  apply check_array_fillna in EX. subst X0.
  inversion HS; subst S. clear HS.
  set (X := map (map (filled 0)) (values df)).
  assert (Ln : List.length (map normalize X) = List.length (index df)).
  { unfold X, index, values. now rewrite !length_map. }
  pose proof (position_lt _ _ _ Ha) as Li.
  pose proof (position_lt _ _ _ Hb) as Lj.
  rewrite <- Ln in Li, Lj.
  destruct (gram_entry (map normalize X) i j Li Lj) as [Lr E].
  rewrite (at_of_array _ _ _ a b i j Ha Hb); [|unfold gram; now rewrite length_map|exact Lr].
  rewrite E. do 3 f_equal.
  - change [] with (normalize []) at 1. rewrite (map_nth normalize X []).
    unfold X. change (@nil R) with (map (filled 0) []).
    now rewrite (map_nth (map (filled 0)) (values df) []).
  - change [] with (normalize []) at 1. rewrite (map_nth normalize X []).
    unfold X. change (@nil R) with (map (filled 0) []).
    now rewrite (map_nth (map (filled 0)) (values df) []).
Qed.

(** ** The cosine of two rows *)

Lemma dot_comm (x y : list R) : dot x y = dot y x.
Proof.
  unfold dot. revert y.
  induction x as [|a x IH]; intros [|b y]; cbn; try reflexivity.
  fold (sum (map (fun p => fst p * snd p) (combine x y))).
  fold (sum (map (fun p => fst p * snd p) (combine y x))).
  rewrite IH. lra.
Qed.

Lemma sumsq_nonneg (x : list R) : 0 <= sum (map (fun a => a * a) x).
Proof.
  induction x as [|a x IH]; cbn; [lra|].
  fold (sum (map (fun a => a * a) x)). nra.
Qed.

Lemma dot_self (x : list R) : dot x x = sum (map (fun a => a * a) x).
Proof.
  unfold dot. induction x as [|a x IH]; cbn; [reflexivity|].
  fold (sum (map (fun p => fst p * snd p) (combine x x))).
  fold (sum (map (fun a => a * a) x)). now rewrite IH.
Qed.

(** A form [Y a^2 - 2 D a b + X b^2] with [D^2 <= X Y] is not negative. *)
Lemma form_nonneg (a b X Y D : R) :
  0 <= X -> 0 <= Y -> D * D <= X * Y ->
  2 * (a * b * D) <= a * a * Y + b * b * X.
Proof.
  intros HX HY HD.
  destruct (Req_dec_T Y 0) as [E|N].
  - subst Y. pose proof (Rle_0_sqr D) as SD. unfold Rsqr in SD.
    pose proof (Rle_0_sqr b) as Sb. unfold Rsqr in Sb.
    assert (Z : D * D = 0) by lra.
    apply Rmult_integral in Z. assert (D = 0) by tauto. subst D.
    assert (0 <= b * b * X) by now apply Rmult_le_pos. lra.
  - assert (P : 0 < Y) by lra.
    assert (Q : 0 <= Y * (a * a * Y + b * b * X - 2 * (a * b * D))).
    { replace (Y * (a * a * Y + b * b * X - 2 * (a * b * D)))
        with ((Y * a - D * b) * (Y * a - D * b) + (X * Y - D * D) * (b * b))
        by ring.
      pose proof (Rle_0_sqr (Y * a - D * b)) as S1. unfold Rsqr in S1.
      pose proof (Rle_0_sqr b) as S2. unfold Rsqr in S2.
      assert (0 <= (X * Y - D * D) * (b * b)) by (apply Rmult_le_pos; lra).
      lra. }
    assert (0 <= a * a * Y + b * b * X - 2 * (a * b * D)).
    { destruct (Rle_lt_dec 0 (a * a * Y + b * b * X - 2 * (a * b * D)))
        as [L|L]; [exact L|]. exfalso.
      assert (0 < Y * - (a * a * Y + b * b * X - 2 * (a * b * D)))
        by (apply Rmult_lt_0_compat; lra).
      lra. }
    lra.
Qed.

Lemma cauchy_schwarz (x y : list R) :
  dot x y * dot x y
  <= sum (map (fun a => a * a) x) * sum (map (fun a => a * a) y).
Proof.
  revert y. induction x as [|a x IH]; intros [|b y].
  - cbn. unfold dot. cbn. lra.
  - unfold dot. cbn [combine map sum fold_right].
    pose proof (sumsq_nonneg (b :: y)). lra.
  - rewrite dot_nil_r. cbn [map sum fold_right].
    pose proof (sumsq_nonneg (a :: x)). cbn [map sum fold_right] in *. lra.
  - specialize (IH y).
    pose proof (sumsq_nonneg x) as HX. pose proof (sumsq_nonneg y) as HY.
    unfold dot in *. cbn [combine map sum fold_right fst snd].
    fold (sum (map (fun p => fst p * snd p) (combine x y))) in *.
    fold (sum (map (fun a => a * a) x)) in *.
    fold (sum (map (fun a => a * a) y)) in *.
    set (D := sum (map (fun p => fst p * snd p) (combine x y))) in *.
    set (X := sum (map (fun a => a * a) x)) in *.
    set (Y := sum (map (fun a => a * a) y)) in *.
    pose proof (form_nonneg a b X Y D HX HY IH).
    replace ((a * b + D) * (a * b + D))
      with (a * a * (b * b) + 2 * (a * b * D) + D * D) by ring.
    replace ((a * a + X) * (b * b + Y))
      with (a * a * (b * b) + (a * a * Y + b * b * X) + X * Y) by ring.
    lra.
Qed.

(** The divisor scikit-learn takes for a row: its norm, or 1 for a row of
    norm zero. *)
Lemma normalize_scaled (x : list R) :
  exists n, normalize x = map (fun a => a / n) x /\ 0 < n /\ norm x <= n /\
            (norm x <> 0 -> n = norm x).
Proof.
  unfold normalize.
  assert (P : 0 <= norm x) by apply sqrt_pos.
  destruct (Req_dec_T (norm x) 0) as [E|N].
  - exists 1. rewrite E.
    split; [reflexivity|]. split; [lra|]. split; [lra|].
    intro H. now contradiction H.
  - exists (norm x).
    split; [reflexivity|]. split; [lra|]. split; [lra|reflexivity].
Qed.

Lemma dot_nonneg (x y : list R) :
  Forall (fun a => 0 <= a) x -> Forall (fun a => 0 <= a) y -> 0 <= dot x y.
Proof.
  intros Hx. revert y. unfold dot.
  induction Hx as [|a x Ha Hx IH]; intros y Hy; [cbn; lra|].
  destruct Hy as [|b y Hb Hy]; [cbn; lra|].
  cbn [combine map sum fold_right fst snd].
  fold (sum (map (fun p => fst p * snd p) (combine x y))).
  specialize (IH y Hy). nra.
Qed.

Lemma cosine_value_nonneg (x y : list R) :
  Forall (fun a => 0 <= a) x -> Forall (fun a => 0 <= a) y ->
  0 <= dot (normalize x) (normalize y).
Proof.
  intros Hx Hy.
  destruct (normalize_scaled x) as (n & -> & Pn & _).
  destruct (normalize_scaled y) as (m & -> & Pm & _).
  rewrite dot_scaled by lra.
  apply Rmult_le_pos; [now apply dot_nonneg|].
  left. apply Rinv_0_lt_compat. now apply Rmult_lt_0_compat.
Qed.

(** ** The similarity frame *)

(** X9.  Symmetry: the similarity of [a] to [b] is that of [b] to [a]. *)
Theorem cosine_similarity_symmetric (df S : DataFrame) (a b : label) :
  cosine_similarity_of df = Ok S ->
  In a (index df) -> In b (index df) ->
  at_ S a b = at_ S b a.
Proof.
  intros HS Ha Hb.
  apply position_found in Ha. destruct Ha as [i Hi].
  apply position_found in Hb. destruct Hb as [j Hj].
  rewrite (cosine_similarity_of_entry df S a b i j HS Hi Hj).
  rewrite (cosine_similarity_of_entry df S b a j i HS Hj Hi).
  now rewrite dot_comm.
Qed.

Lemma cosine_similarity_symmetric_witness :
  at_ raw_similarity "user-3" "user-1" = at_ raw_similarity "user-1" "user-3".
Proof.
  apply (cosine_similarity_symmetric data_frame).
  - reflexivity.
  - cbn. tauto.
  - cbn. tauto.
Defined.

Lemma nth_values_row (df : DataFrame) (i : nat) :
  (i < List.length (rows df))%nat ->
  exists u, In (u, nth i (values df) []) (rows df).
Proof.
  unfold values. revert i.
  induction (rows df) as [|[u r] l IH]; intros i L; cbn in *; [lia|].
  destruct i as [|i].
  - exists u. now left.
  - destruct (IH i) as [u' H]; [lia|]. exists u'. now right.
Qed.

(** X10.  Where no rating is negative, no similarity is: every entry of
    the similarity frame is then a number at or above zero. *)
Theorem cosine_similarity_nonnegative (df S : DataFrame) (a b : label) :
  cosine_similarity_of df = Ok S ->
  In a (index df) -> In b (index df) ->
  (forall u r x, In (u, r) (rows df) -> In (Some x) r -> 0 <= x) ->
  exists s, at_ S a b = Ok (Fin s) /\ 0 <= s.
Proof.
  intros HS Ha Hb Hpos.
  apply position_found in Ha. destruct Ha as [i Hi].
  apply position_found in Hb. destruct Hb as [j Hj].
  eexists. split; [exact (cosine_similarity_of_entry df S a b i j HS Hi Hj)|].
  assert (P : forall k, (k < List.length (rows df))%nat ->
              Forall (fun a => 0 <= a)
                     (map (filled 0) (nth k (values df) []))).
  { intros k Lk. destruct (nth_values_row df k Lk) as [u Hu].
    apply Forall_forall. intros y Hy. apply in_map_iff in Hy.
    destruct Hy as ([x|] & <- & Hx); cbn; [|lra].
    exact (Hpos u _ x Hu Hx). }
  apply position_lt in Hi, Hj. unfold index in Hi, Hj.
  rewrite length_map in Hi, Hj.
  apply cosine_value_nonneg; now apply P.
Qed.

Lemma cosine_similarity_nonnegative_witness :
  exists s, at_ raw_similarity "user-4" "user-5" = Ok (Fin s) /\ 0 <= s.
Proof.
  apply (cosine_similarity_nonnegative data_frame).
  - reflexivity.
  - cbn. tauto.
  - cbn. tauto.
  - intros u r x H Hx. cbn in H.
    destruct H as [H|[H|[H|[H|[H|[]]]]]]; inversion H; subst; cbn in Hx;
      repeat (destruct Hx as [Hx|Hx]; [inversion Hx; lra|]);
      destruct Hx.
Defined.

Lemma sumsq_positive (x : list R) (a : R) :
  In a x -> a <> 0 -> 0 < sum (map (fun a => a * a) x).
Proof.
  induction x as [|b x IH]; cbn; [tauto|].
  fold (sum (map (fun a => a * a) x)).
  pose proof (sumsq_nonneg x) as P.
  pose proof (Rle_0_sqr b) as Sb. unfold Rsqr in Sb.
  intros [->|H] N.
  - assert (0 < a * a) by (apply Rsqr_pos_lt in N; exact N). lra.
  - specialize (IH H N). lra.
Qed.

Lemma normalize_null (x : list R) :
  Forall (fun a => a = 0) x -> Forall (fun a => a = 0) (normalize x).
Proof.
  intro H. destruct (normalize_scaled x) as (n & -> & Pn & _).
  apply Forall_map. revert H. apply Forall_impl.
  intros a ->. unfold Rdiv. apply Rmult_0_l.
Qed.

Lemma dot_null_l (x y : list R) :
  Forall (fun a => a = 0) x -> dot x y = 0.
Proof.
  intro H. revert y. unfold dot.
  induction H as [|a x Ha _ IH]; intros [|b y]; cbn; try reflexivity.
  fold (sum (map (fun p => fst p * snd p) (combine x y))).
  rewrite IH, Ha. lra.
Qed.

(** X11.  A user who has rated nothing, or given zeros only, has the
    similarity 0 to every user, itself included: scikit-learn leaves a row
    of zeros as it is. *)
Theorem cosine_similarity_of_unrated_user (df S : DataFrame) (a b : label)
    (r : list cell) :
  cosine_similarity_of df = Ok S ->
  loc df a = Ok (mkSeries (columns df) r) ->
  (forall x, In (Some x) r -> x = 0) ->
  In b (index df) ->
  at_ S a b = Ok (Fin 0) /\ at_ S b a = Ok (Fin 0).
Proof.
  intros HS Hloc Hz Hb.
  assert (Hr : assoc a (rows df) = Some r).
  { unfold loc in Hloc. destruct (assoc a (rows df)); inversion Hloc.
    reflexivity. }
  destruct (assoc_position a (rows df) r [] Hr) as (i & Hi & Hn).
  fold (values df) in Hn.
  apply position_found in Hb. destruct Hb as [j Hj].
  assert (Z : Forall (fun a => a = 0)
                     (normalize (map (filled 0) (nth i (values df) [])))).
  { apply normalize_null. rewrite Hn. apply Forall_forall. intros y Hy.
    apply in_map_iff in Hy. destruct Hy as ([x|] & <- & Hx); cbn;
      [now apply Hz|reflexivity]. }
  split.
  - rewrite (cosine_similarity_of_entry df S a b i j HS Hi Hj).
    now rewrite dot_null_l.
  - rewrite (cosine_similarity_of_entry df S b a j i HS Hj Hi).
    now rewrite dot_comm, dot_null_l.
Qed.

Lemma cosine_similarity_of_unrated_user_witness :
  exists S,
    cosine_similarity_of
      (mkFrame ["item-1"; "item-2"]
               [("user-1", [Some 3; Some 4]); ("user-2", [None; None])])
    = Ok S /\
    at_ S "user-2" "user-1" = Ok (Fin 0) /\
    at_ S "user-1" "user-2" = Ok (Fin 0).
Proof.
  eexists. split; [reflexivity|].
  apply (cosine_similarity_of_unrated_user
           (mkFrame ["item-1"; "item-2"]
                    [("user-1", [Some 3; Some 4]); ("user-2", [None; None])])
           _ "user-2" "user-1" [None; None]).
  - reflexivity.
  - reflexivity.
  - intros x [H|[H|[]]]; discriminate.
  - cbn. tauto.
Defined.

(** ** Transposition *)

Lemma nth_nil_cell (c : nat) : nth c (@nil cell) None = None.
Proof. now destruct c. Qed.

Lemma map_nth_seq {A : Type} (l : list A) (d : A) :
  map (fun i => nth i l d) (seq 0 (List.length l)) = l.
Proof.
  induction l as [|a l IH]; [reflexivity|].
  cbn [List.length seq map nth]. f_equal.
  rewrite <- seq_shift, map_map. exact IH.
Qed.

Lemma transpose_length (n : nat) (m : list (list cell)) :
  List.length (transpose n m) = n.
Proof. unfold transpose. now rewrite length_map, length_seq. Qed.

Lemma transpose_transpose (n : nat) (m : list (list cell)) :
  Forall (fun r => List.length r = n) m ->
  transpose (List.length m) (transpose n m) = m.
Proof.
  intro Hwf. unfold transpose at 1.
  rewrite <- (map_nth_seq m []) at 2.
  apply map_ext_in. intros c Hc. apply in_seq in Hc.
  unfold transpose. rewrite map_map.
  assert (Hl : List.length (nth c m []) = n).
  { rewrite Forall_forall in Hwf. apply Hwf. apply nth_In. lia. }
  rewrite <- (map_nth_seq (nth c m []) None), Hl.
  apply map_ext. intro c'.
  rewrite <- (nth_nil_cell c') at 1.
  now rewrite (map_nth (fun row => nth c' row None) m []).
Qed.

Lemma nth_transpose (n : nat) (m : list (list cell)) (i j : nat) :
  (j < n)%nat ->
  nth i (nth j (transpose n m) []) None = nth j (nth i m []) None.
Proof.
  intro Lj. unfold transpose.
  rewrite (nth_indep _ [] (map (fun row : list cell => nth O row None) m))
    by (rewrite length_map, length_seq; exact Lj).
  rewrite (map_nth (fun c => map (fun row : list cell => nth c row None) m)
             (seq 0 n) O).
  rewrite seq_nth by exact Lj. cbn [Nat.add].
  rewrite <- (nth_nil_cell j) at 1.
  now rewrite (map_nth (fun row : list cell => nth j row None) m []).
Qed.

Lemma map_snd_combine {A B : Type} (a : list A) (b : list B) :
  List.length a = List.length b -> map snd (combine a b) = b.
Proof.
  revert b. induction a as [|x a IH]; intros [|y b] H; cbn in *;
    try reflexivity; try discriminate.
  f_equal. apply IH. lia.
Qed.

Lemma map_fst_combine {A B : Type} (a : list A) (b : list B) :
  List.length a = List.length b -> map fst (combine a b) = a.
Proof.
  revert b. induction a as [|x a IH]; intros [|y b] H; cbn in *;
    try reflexivity; try discriminate.
  f_equal. apply IH. lia.
Qed.

Lemma combine_fst_snd {A B : Type} (l : list (A * B)) :
  combine (map fst l) (map snd l) = l.
Proof.
  induction l as [|[a b] l IH]; cbn; [reflexivity|]. now rewrite IH.
Qed.

Lemma values_T (df : DataFrame) :
  values (T df) = transpose (List.length (columns df)) (values df).
Proof.
  unfold values at 1, T. cbn [rows]. apply map_snd_combine.
  now rewrite transpose_length.
Qed.

Lemma index_T (df : DataFrame) : index (T df) = columns df.
Proof.
  unfold index, T. cbn [rows]. apply map_fst_combine.
  now rewrite transpose_length.
Qed.

Lemma well_formed_values (df : DataFrame) :
  well_formed df ->
  Forall (fun r => List.length r = List.length (columns df)) (values df).
Proof.
  unfold well_formed, values. intro H. apply Forall_map.
  exact H.
Qed.

(** X13.  Transposing twice gives the frame back; a frame and its transpose
    hold the same cells under exchanged labels. *)
Theorem transpose_round_trip (df : DataFrame) :
  (well_formed df -> T (T df) = df) /\
  (forall u i, In u (index df) -> In i (columns df) ->
               at_ (T df) i u = at_ df u i).
Proof.
  split.
  - intro Hwf. unfold T at 1. rewrite index_T, values_T.
    change (columns (T df)) with (index df).
    replace (List.length (index df)) with (List.length (values df))
      by (unfold index, values; now rewrite !length_map).
    rewrite transpose_transpose by now apply well_formed_values.
    unfold index, values. rewrite combine_fst_snd. now destruct df.
  - intros u i Hu Hi.
    apply position_found in Hu. destruct Hu as [n Hn].
    apply position_found in Hi. destruct Hi as [j Hj].
    pose proof (position_lt _ _ _ Hj) as Lj.
    unfold at_, loc, T. cbn [rows columns].
    rewrite (assoc_combine (A := list cell) i (columns df) _ j [] Hj)
      by now rewrite transpose_length.
    cbn [bind]. unfold getitem. cbn [s_index s_values].
    rewrite Hn. cbn [bind].
    unfold index in Hn.
    destruct (assoc u (rows df)) as [r|] eqn:Hr.
    + destruct (assoc_position u (rows df) r [] Hr) as (n' & Hn' & Hrow).
      rewrite Hn in Hn'. inversion Hn'; subst n'.
      cbn [bind s_index s_values].
      rewrite Hj. cbn [bind]. do 2 f_equal.
      rewrite (nth_transpose _ _ n j Lj). unfold values. now rewrite Hrow.
    + exfalso. assert (In u (map fst (rows df))).
      { apply position_found. eauto. }
      apply assoc_found in H. destruct H as [a Ha]. congruence.
Qed.

Lemma transpose_round_trip_witness :
  T (T data_frame) = data_frame /\
  at_ (T data_frame) "item-2" "user-3" = at_ data_frame "user-3" "item-2".
Proof.
  destruct (transpose_round_trip data_frame) as [H1 H2]. split.
  - apply H1. exact well_formed_data_frame.
  - apply H2; cbn; tauto.
Defined.

(** ** Pearson's coefficient, by its sums *)

Lemma pearson_by_sums (xs ys : list cell) :
  pearson xs ys = coefficient (paired xs ys).
Proof.
  unfold pearson, coefficient.
  destruct (paired xs ys) as [|p ps]; [|reflexivity].
  unfold scatter. cbn [map sum fold_right].
  rewrite Rmult_0_l, sqrt_0.
  destruct (Req_dec_T 0 0) as [_|N]; [reflexivity|now contradiction N].
Qed.

Lemma dot_map {A : Type} (f g : A -> R) (l : list A) :
  dot (map f l) (map g l) = sum (map (fun p => f p * g p) l).
Proof.
  unfold dot. induction l as [|a l IH]; cbn; [reflexivity|].
  fold (sum (map (fun p => fst p * snd p) (combine (map f l) (map g l)))).
  fold (sum (map (fun p => f p * g p) l)). now rewrite IH.
Qed.

Lemma scatter_as_dot (f g : R * R -> R) (ps : list (R * R)) :
  scatter f g ps
  = dot (map (fun p => f p - mean_of f ps) ps)
        (map (fun p => g p - mean_of g ps) ps).
Proof. unfold scatter. now rewrite dot_map. Qed.

Lemma scatter_self_as_sumsq (f : R * R -> R) (ps : list (R * R)) :
  scatter f f ps
  = sum (map (fun a => a * a) (map (fun p => f p - mean_of f ps) ps)).
Proof. rewrite scatter_as_dot. apply dot_self. Qed.

Lemma scatter_self_nonneg (f : R * R -> R) (ps : list (R * R)) :
  0 <= scatter f f ps.
Proof. rewrite scatter_self_as_sumsq. apply sumsq_nonneg. Qed.

Lemma scatter_comm (f g : R * R -> R) (ps : list (R * R)) :
  scatter f g ps = scatter g f ps.
Proof. rewrite !scatter_as_dot. apply dot_comm. Qed.

Lemma scatter_cauchy_schwarz (f g : R * R -> R) (ps : list (R * R)) :
  scatter f g ps * scatter f g ps <= scatter f f ps * scatter g g ps.
Proof.
  rewrite (scatter_as_dot f g), !scatter_self_as_sumsq.
  apply cauchy_schwarz.
Qed.

Lemma paired_swap (xs ys : list cell) :
  paired ys xs = map (fun p => (snd p, fst p)) (paired xs ys).
Proof.
  revert ys. induction xs as [|[x|] xs IH]; intros [|[y|] ys]; cbn;
    try reflexivity; now rewrite IH.
Qed.

Lemma scatter_map (f g : R * R -> R) (h : R * R -> R * R)
    (ps : list (R * R)) :
  scatter f g (map h ps)
  = scatter (fun p => f (h p)) (fun p => g (h p)) ps.
Proof.
  unfold scatter, mean_of. rewrite !map_map, !length_map. reflexivity.
Qed.

Lemma pearson_symmetric (xs ys : list cell) : pearson xs ys = pearson ys xs.
Proof.
  rewrite !pearson_by_sums, (paired_swap xs ys).
  unfold coefficient. rewrite !scatter_map. cbn [fst snd].
  change (fun p : R * R => snd p) with (@snd R R).
  change (fun p : R * R => fst p) with (@fst R R).
  rewrite (scatter_comm snd fst (paired xs ys)).
  now rewrite (Rmult_comm (scatter snd snd (paired xs ys))).
Qed.

(** The coefficient is between -1 and 1. *)
Lemma coefficient_bounded (ps : list (R * R)) (r : R) :
  coefficient ps = Some r -> -1 <= r <= 1.
Proof.
  unfold coefficient.
  pose proof (scatter_cauchy_schwarz fst snd ps) as CS.
  pose proof (scatter_self_nonneg fst ps) as Px.
  pose proof (scatter_self_nonneg snd ps) as Py.
  set (q := scatter fst fst ps * scatter snd snd ps) in *.
  assert (Pq : 0 <= q) by (unfold q; now apply Rmult_le_pos).
  assert (Ps : 0 <= sqrt q) by apply sqrt_pos.
  pose proof (sqrt_sqrt q Pq) as Hs.
  destruct (Req_dec_T (sqrt q) 0) as [E|N]; [discriminate|].
  intro H. inversion H. clear H.
  set (n := scatter fst snd ps) in *. set (d := sqrt q) in *.
  assert (Pd : 0 < d) by lra.
  apply quotient_bounds_le; [exact Pd| |].
  - destruct (Rle_lt_dec (-1 * d) n) as [L|L]; [exact L|]. exfalso. nra.
  - destruct (Rle_lt_dec n (1 * d)) as [L|L]; [exact L|]. exfalso. nra.
Qed.

Lemma scatter_ext_l (f f' g : R * R -> R) (ps : list (R * R)) :
  (forall p, In p ps -> f p = f' p) -> scatter f g ps = scatter f' g ps.
Proof.
  intro H. unfold scatter, mean_of.
  rewrite (map_ext_in f f' ps H).
  f_equal. apply map_ext_in. intros p Hp. now rewrite (H p Hp).
Qed.

(** A coordinate that is constant over the shared observations leaves no
    coefficient. *)
Lemma scatter_constant (f : R * R -> R) (k : R) (ps : list (R * R)) :
  (forall p, In p ps -> f p = k) -> scatter f f ps = 0.
Proof.
  intro H. destruct ps as [|p0 ps0]; [reflexivity|].
  set (ps := p0 :: ps0) in *.
  assert (Hn : INR (List.length ps) <> 0) by (apply not_0_INR; discriminate).
  rewrite (scatter_ext_l f (fun _ => k)) by exact H.
  rewrite scatter_comm.
  rewrite (scatter_ext_l f (fun _ => k)) by exact H.
  unfold scatter, mean_of.
  replace (sum (map (fun _ : R * R => k) ps)) with (INR (List.length ps) * k).
  - rewrite (map_ext _ (fun _ => 0)).
    + clear. induction ps as [|p ps IH]; cbn; [reflexivity|].
      fold (sum (map (fun _ : R * R => 0) ps)). rewrite IH. lra.
    + intro p. field. exact Hn.
  - clear. induction ps as [|p ps IH]; [cbn; lra|].
    cbn [map sum fold_right List.length].
    fold (sum (map (fun _ : R * R => k) ps)). rewrite <- IH, S_INR. ring.
Qed.

Lemma coefficient_constant (k : R) (ps : list (R * R)) :
  (forall p, In p ps -> fst p = k) -> coefficient ps = None.
Proof.
  intro H. unfold coefficient.
  rewrite (scatter_constant fst k ps H), Rmult_0_l, sqrt_0.
  destruct (Req_dec_T 0 0) as [_|N]; [reflexivity|now contradiction N].
Qed.

Lemma scatter_positive (f : R * R -> R) (ps : list (R * R)) (p q : R * R) :
  In p ps -> In q ps -> f p <> f q -> 0 < scatter f f ps.
Proof.
  intros Hp Hq N. rewrite scatter_self_as_sumsq.
  destruct (Req_dec_T (f p) (mean_of f ps)) as [E|N'].
  - apply (sumsq_positive _ (f q - mean_of f ps)).
    + now apply (in_map (fun p => f p - mean_of f ps)).
    + rewrite <- E. lra.
  - apply (sumsq_positive _ (f p - mean_of f ps)).
    + now apply (in_map (fun p => f p - mean_of f ps)).
    + lra.
Qed.

Lemma paired_self (xs : list cell) :
  paired xs xs = map (fun v => (v, v)) (observed xs).
Proof.
  induction xs as [|[x|] xs IH]; cbn; [reflexivity| |exact IH].
  now rewrite IH.
Qed.

Lemma pearson_self (xs : list cell) :
  ((exists x y, In (Some x) xs /\ In (Some y) xs /\ x <> y) ->
   pearson xs xs = Some 1) /\
  ((forall x y, In (Some x) xs -> In (Some y) xs -> x = y) ->
   pearson xs xs = None).
Proof.
  rewrite pearson_by_sums.
  assert (Hobs : forall x, In (Some x) xs <-> In (x, x) (paired xs xs)).
  { intro x. rewrite paired_self. clear.
    induction xs as [|[y|] xs IH]; cbn; [tauto| |].
    - rewrite <- IH. split; intros [H|H]; auto; left; congruence.
    - rewrite <- IH. split; [intros [H|H]; [discriminate|exact H]|auto]. }
  assert (Hd : forall p, In p (paired xs xs) -> fst p = snd p).
  { rewrite paired_self. intros p Hp. apply in_map_iff in Hp.
    destruct Hp as (v & <- & _). reflexivity. }
  split.
  - intros (x & y & Hx & Hy & N).
    apply Hobs in Hx. apply Hobs in Hy.
    set (ps := paired xs xs) in *.
    assert (P : 0 < scatter fst fst ps).
    { apply (scatter_positive fst ps (x, x) (y, y) Hx Hy). exact N. }
    unfold coefficient.
    rewrite <- (scatter_ext_l fst snd snd ps Hd).
    rewrite (scatter_comm fst snd ps).
    rewrite <- (scatter_ext_l fst snd fst ps Hd).
    rewrite sqrt_square by lra.
    destruct (Req_dec_T (scatter fst fst ps) 0) as [E|_]; [lra|].
    f_equal. field. lra.
  - intro Hc. destruct (paired xs xs) as [|[x0 y0] ps0] eqn:E.
    + apply (coefficient_constant 0). intros p [].
    + apply (coefficient_constant x0). intros p Hp.
      rewrite <- E in *.
      pose proof (Hd p Hp) as Ep.
      destruct p as [a b]. cbn in Ep. subst b.
      assert (H0 : In (x0, y0) (paired xs xs)) by (rewrite E; now left).
      pose proof (Hd _ H0) as E0. cbn in E0. subst y0.
      apply Hobs in Hp, H0. cbn. now apply Hc.
Qed.

(** ** The correlation frame *)

(** For a well-formed frame, what [df.T.corr()] holds: the coefficient
    of every pair of rows of [df]. *)
Lemma correlation_of_rows (df : DataFrame) :
  well_formed df ->
  correlation_of df
  = mkFrame (index df)
            (combine (index df)
                     (map (fun x => map (fun y => pearson x y) (values df))
                          (values df))).
Proof.
  intro Hwf. unfold correlation_of, corr.
  change (columns (T df)) with (index df).
  rewrite values_T.
  replace (List.length (index df)) with (List.length (values df))
    by (unfold index, values; now rewrite !length_map).
  now rewrite transpose_transpose by now apply well_formed_values.
Qed.

Lemma correlation_of_entry (df : DataFrame) (a b : label) (i j : nat) :
  well_formed df ->
  position a (index df) = Some i -> position b (index df) = Some j ->
  at_ (correlation_of df) a b
  = Ok (of_cell (pearson (nth i (values df) []) (nth j (values df) []))).
Proof.
  intros Hwf Ha Hb. rewrite (correlation_of_rows df Hwf).
  pose proof (position_lt _ _ _ Ha) as Li.
  pose proof (position_lt _ _ _ Hb) as Lj.
  assert (Ll : List.length (index df) = List.length (values df))
    by (unfold index, values; now rewrite !length_map).
  rewrite Ll in Li, Lj.
  unfold at_, loc. cbn [rows columns].
  rewrite (assoc_combine (A := list cell) a (index df) _ i
             (map (fun y => pearson [] y) (values df)) Ha)
    by now rewrite length_map.
  cbn [bind]. unfold getitem. cbn [s_index s_values]. rewrite Hb.
  cbn [bind]. do 2 f_equal.
  rewrite (map_nth (fun x => map (fun y => pearson x y) (values df))
             (values df) []).
  rewrite (nth_indep _ None (pearson (nth i (values df) []) []))
    by now rewrite length_map.
  now rewrite (map_nth (fun y => pearson (nth i (values df) []) y)
                 (values df) []).
Qed.

(** X14.  Symmetry: the correlation of [a] with [b] is that of [b] with [a]. *)
Theorem correlation_symmetric (df : DataFrame) (a b : label) :
  well_formed df ->
  In a (index df) -> In b (index df) ->
  at_ (correlation_of df) a b = at_ (correlation_of df) b a.
Proof.
  intros Hwf Ha Hb.
  apply position_found in Ha. destruct Ha as [i Hi].
  apply position_found in Hb. destruct Hb as [j Hj].
  rewrite (correlation_of_entry df a b i j Hwf Hi Hj).
  rewrite (correlation_of_entry df b a j i Hwf Hj Hi).
  now rewrite pearson_symmetric.
Qed.

Lemma correlation_symmetric_witness :
  at_ Pearson.correlation "user-3" "user-1"
  = at_ Pearson.correlation "user-1" "user-3".
Proof.
  apply (correlation_symmetric data_frame).
  - exact well_formed_data_frame.
  - cbn. tauto.
  - cbn. tauto.
Defined.

(** X15.  Every correlation is missing or a number between -1 and 1. *)
Theorem correlation_bounded (df : DataFrame) (a b : label) :
  well_formed df ->
  In a (index df) -> In b (index df) ->
  at_ (correlation_of df) a b = Ok NaN \/
  exists r, at_ (correlation_of df) a b = Ok (Fin r) /\ -1 <= r <= 1.
Proof.
  intros Hwf Ha Hb.
  apply position_found in Ha. destruct Ha as [i Hi].
  apply position_found in Hb. destruct Hb as [j Hj].
  rewrite (correlation_of_entry df a b i j Hwf Hi Hj).
  destruct (pearson _ _) as [r|] eqn:E; cbn; [right|now left].
  exists r. split; [reflexivity|].
  rewrite pearson_by_sums in E. now apply coefficient_bounded in E.
Qed.

Lemma correlation_bounded_witness :
  at_ Pearson.correlation "user-4" "user-5" = Ok NaN \/
  exists r, at_ Pearson.correlation "user-4" "user-5" = Ok (Fin r)
            /\ -1 <= r <= 1.
Proof.
  apply (correlation_bounded data_frame).
  - exact well_formed_data_frame.
  - cbn. tauto.
  - cbn. tauto.
Defined.

Lemma row_of_label (df : DataFrame) (a : label) (r : list cell) :
  loc df a = Ok (mkSeries (columns df) r) ->
  exists i, position a (index df) = Some i /\ nth i (values df) [] = r.
Proof.
  intro Hloc.
  assert (Hr : assoc a (rows df) = Some r).
  { unfold loc in Hloc. destruct (assoc a (rows df)); inversion Hloc.
    reflexivity. }
  exact (assoc_position a (rows df) r [] Hr).
Qed.

(** X16.  The correlation of a user with itself: 1 when two of its ratings
    differ; missing when all its ratings are the same, or it has none. *)
Theorem correlation_diagonal (df : DataFrame) (a : label) (r : list cell) :
  well_formed df ->
  loc df a = Ok (mkSeries (columns df) r) ->
  ((exists x y, In (Some x) r /\ In (Some y) r /\ x <> y) ->
   at_ (correlation_of df) a a = Ok (Fin 1)) /\
  ((forall x y, In (Some x) r -> In (Some y) r -> x = y) ->
   at_ (correlation_of df) a a = Ok NaN).
Proof.
  intros Hwf Hloc. destruct (row_of_label df a r Hloc) as (i & Hi & Hr).
  rewrite (correlation_of_entry df a a i i Hwf Hi Hi), Hr.
  destruct (pearson_self r) as [H1 H0].
  split; intro H; [now rewrite H1|now rewrite H0].
Qed.

Lemma correlation_diagonal_witness :
  ((exists x y, In (Some x) [None; Some 3; Some 3; Some 1; Some 1; None] /\
                In (Some y) [None; Some 3; Some 3; Some 1; Some 1; None] /\
                x <> y) ->
   at_ Pearson.correlation "user-3" "user-3" = Ok (Fin 1)) /\
  ((forall x y, In (Some x) [None; Some 3; Some 3; Some 1; Some 1; None] ->
                In (Some y) [None; Some 3; Some 3; Some 1; Some 1; None] ->
                x = y) ->
   at_ Pearson.correlation "user-3" "user-3" = Ok NaN).
Proof.
  apply (correlation_diagonal data_frame).
  - exact well_formed_data_frame.
  - reflexivity.
Defined.

(** X17.  No correlation where one of the two users gave one same rating to
    all the items both have rated; so, too, where both have rated one
    item only, or none. *)
Theorem correlation_missing_for_constant_ratings
    (df : DataFrame) (a b : label) (ra rb : list cell) (k : R) :
  well_formed df ->
  loc df a = Ok (mkSeries (columns df) ra) ->
  loc df b = Ok (mkSeries (columns df) rb) ->
  (forall p, In p (paired ra rb) -> fst p = k) ->
  at_ (correlation_of df) a b = Ok NaN /\
  at_ (correlation_of df) b a = Ok NaN.
Proof.
  intros Hwf Ha Hb Hk.
  destruct (row_of_label df a ra Ha) as (i & Hi & Hra).
  destruct (row_of_label df b rb Hb) as (j & Hj & Hrb).
  rewrite (correlation_of_entry df b a j i Hwf Hj Hi).
  rewrite (correlation_of_entry df a b i j Hwf Hi Hj).
  rewrite Hra, Hrb, (pearson_symmetric rb ra), pearson_by_sums.
  now rewrite (coefficient_constant k _ Hk).
Qed.

Lemma correlation_missing_for_constant_ratings_witness :
  at_ (correlation_of Svd.data_frame) "user-1" "user-3" = Ok NaN /\
  at_ (correlation_of Svd.data_frame) "user-3" "user-1" = Ok NaN.
Proof.
  apply (correlation_missing_for_constant_ratings Svd.data_frame
           "user-1" "user-3" [Some 1; Some 1; Some 1] [Some 3; Some 1; Some 1]
           1).
  - unfold well_formed. cbn. repeat constructor.
  - reflexivity.
  - reflexivity.
  - cbn. intros p [<-|[<-|[<-|[]]]]; reflexivity.
Defined.

(** ** Filling a row with its mean *)

Lemma loc_assoc (df : DataFrame) (a : label) (r : list cell) :
  loc df a = Ok (mkSeries (columns df) r) -> assoc a (rows df) = Some r.
Proof.
  unfold loc. destruct (assoc a (rows df)); intro H; inversion H.
  reflexivity.
Qed.

Lemma nth_map_cell (g : cell -> cell) (r : list cell) (n : nat) :
  (n < List.length r)%nat -> nth n (map g r) None = g (nth n r None).
Proof.
  intro L. rewrite (nth_indep (map g r) None (g None))
    by now rewrite length_map.
  apply map_nth.
Qed.

Lemma assoc_map_rows (h : label -> list cell -> list cell)
    (l : list (label * list cell)) (u : label) :
  assoc u (map (fun ur => (fst ur, h (fst ur) (snd ur))) l)
  = option_map (h u) (assoc u l).
Proof.
  induction l as [|[k v] l IH]; cbn; [reflexivity|].
  destruct (String.eqb_spec u k) as [->|_]; [reflexivity|exact IH].
Qed.

Lemma row_adjusted_mean_rows (df : DataFrame) :
  row_adjusted_mean df
  = mkFrame (columns df)
            (map (fun ur => (fst ur,
                             map (fun c => match c with
                                           | Some x => Some x
                                           | None => nanmean (snd ur)
                                           end) (snd ur)))
                 (rows df)).
Proof. reflexivity. Qed.

(** X20.  The fill of the decomposition notebook, row by row: the ratings
    that are there are kept, and every missing one becomes the mean of the
    ratings of its row, so that the row, if the user has rated anything,
    has no missing entry left; the row of a user who has rated nothing
    stays as it is. *)
Theorem row_adjusted_mean_fills (df : DataFrame) (u : label)
    (r : list cell) :
  loc df u = Ok (mkSeries (columns df) r) ->
  exists r',
    loc (row_adjusted_mean df) u = Ok (mkSeries (columns df) r') /\
    List.length r' = List.length r /\
    (forall n x, nth n r None = Some x -> nth n r' None = Some x) /\
    (forall n, (n < List.length r)%nat -> nth n r None = None ->
               nth n r' None = nanmean r) /\
    (observed r <> [] -> ~ In None r') /\
    (observed r = [] -> r' = r).
Proof.
  intro Hloc. apply loc_assoc in Hloc.
  pose (f := (fun c => match c with
                        | Some x => Some x
                        | None => nanmean r
                        end) : cell -> cell).
  exists (@map cell cell f r).
  split.
  { unfold loc.
    change (columns (row_adjusted_mean df)) with (columns df).
    change (rows (row_adjusted_mean df))
      with (map (fun ur : label * list cell =>
                   (fst ur,
                    (fun (_ : label) (v : list cell) =>
                       map (fun c => match c with
                                     | Some x => Some x
                                     | None => nanmean v
                                     end) v) (fst ur) (snd ur)))
                (rows df)).
    rewrite assoc_map_rows, Hloc. reflexivity. }
  split; [apply length_map|].
  split.
  { intros n x Hn.
    destruct (Nat.lt_ge_cases n (List.length r)) as [L|L].
    - rewrite (nth_map_cell f r n L), Hn. reflexivity.
    - rewrite nth_overflow in Hn by exact L. discriminate. }
  split.
  { intros n L Hn. rewrite (nth_map_cell f r n L), Hn. reflexivity. }
  split.
  - intros Hne Hin. apply in_map_iff in Hin. destruct Hin as ([x|] & E & _).
    + discriminate.
    + unfold f in E. rewrite (nanmean_observed r Hne) in E. discriminate.
  - intro Eo. assert (Hm : nanmean r = None) by (unfold nanmean; now rewrite Eo).
    unfold f. rewrite Hm. rewrite (map_ext _ (fun c => c)) by (now intros [x|]).
    apply map_id.
Qed.

Lemma row_adjusted_mean_fills_witness :
  exists r',
    loc Svd.data_frame_filled "user-5"
    = Ok (mkSeries (columns Svd.data_frame) r') /\
    List.length r' = List.length [Some 3%R; Some 1%R; None] /\
    (forall n x, nth n [Some 3; Some 1; None] None = Some x ->
                 nth n r' None = Some x) /\
    (forall n, (n < List.length [Some 3%R; Some 1%R; None])%nat ->
               nth n [Some 3; Some 1; None] None = None ->
               nth n r' None = nanmean [Some 3; Some 1; None]) /\
    (observed [Some 3; Some 1; None] <> [] -> ~ In None r') /\
    (observed [Some 3; Some 1; None] = [] -> r' = [Some 3; Some 1; None]).
Proof.
  apply (row_adjusted_mean_fills Svd.data_frame "user-5").
  reflexivity.
Defined.

(** X21.  Filling again changes nothing. *)
Theorem row_adjusted_mean_idempotent (df : DataFrame) :
  row_adjusted_mean (row_adjusted_mean df) = row_adjusted_mean df.
Proof.
  rewrite (row_adjusted_mean_rows (row_adjusted_mean df)).
  rewrite (row_adjusted_mean_rows df). cbn [rows columns].
  f_equal. rewrite map_map. apply map_ext. intros [u r]. cbn [fst snd].
  f_equal. rewrite map_map.
  destruct (nanmean r) as [m|] eqn:Em.
  - apply map_ext. intros [x|]; reflexivity.
  - apply map_ext. intros [x|]; [reflexivity|].
    cbv beta iota. transitivity (nanmean r); [|exact Em]. f_equal.
    rewrite <- (map_id r) at 2. apply map_ext. now intros [x|].
Qed.
